(** * Ocean Blog Platform: the authentication and session core

    A shallow embedding of the User model, of the auth middleware and of
    [backend/routes/auth.js]: the user document, the token helpers, the
    lockout counter and the route handlers, as functions over an explicit
    user collection.

    Conventions.
    - [Date.now()] is a parameter [now : Z] (milliseconds); a handler reads
      one instant per request.
    - [process.env] is the record [Env].
    - The user collection is the list of its stored documents in insertion
      order.  Store calls are modelled as succeeding; a rejected [save] or an
      unreachable store is handed to the error middleware, which the
      handlers below do not contain.
    - The handlers are the bodies behind the validation middleware: the
      request fields are the values the validator chain lets through.
    - Profile fields (bio, avatar, location, website, socialLinks,
      preferences, timestamps) are carried unchanged by every handler here
      and are left out of the record. *)

From Stdlib Require Import ZArith List String Bool Lia Arith.
Import ListNotations.
Open Scope string_scope.
Open Scope list_scope.
Open Scope Z_scope.

(** ** jsonwebtoken, symbolically

    A compact HS256 token is determined by its payload, its [iat]/[exp]
    stamps (seconds) and the signing secret; signing is deterministic, so two
    tokens signed for the same payload in the same second are the same
    string.  Every other string is [Opaque]. *)

Definition ObjectId := nat.

Inductive Role := role_user | role_admin | role_moderator.

Record Payload := {
  jwt_id : ObjectId;
  jwt_email : option string;
  jwt_role : option Role;
  jwt_type : option string
}.

Inductive Token :=
| Jws (payload : Payload) (iat exp : Z) (secret : string)
| Opaque (s : string).

Inductive JwtError := JsonWebTokenError | TokenExpiredError.

Inductive Verified :=
| Decoded (payload : Payload)
| Rejected (e : JwtError).

Definition Role_eq_dec (a b : Role) : {a = b} + {a <> b}.
Proof. decide equality. Defined.

Definition Payload_eq_dec (a b : Payload) : {a = b} + {a <> b}.
Proof.
  decide equality;
    try (decide equality; try apply string_dec; apply Role_eq_dec);
    apply Nat.eq_dec.
Defined.

Definition Token_eq_dec (a b : Token) : {a = b} + {a <> b}.
Proof.
  decide equality;
    try apply string_dec; try apply Z.eq_dec; apply Payload_eq_dec.
Defined.

(** [a === b] on token strings. *)
Definition Token_eqb (a b : Token) : bool :=
  if Token_eq_dec a b then true else false.

Module jwt.

(** [Math.floor(Date.now() / 1000)] *)
Definition clockTimestamp (now : Z) : Z := now / 1000.

(** [jwt.sign(payload, secret, { expiresIn })], [expiresIn] in seconds. *)
Definition sign (payload : Payload) (secret : string) (expiresIn : Z)
           (now : Z) : Token :=
  Jws payload (clockTimestamp now) (clockTimestamp now + expiresIn) secret.

(** [jwt.verify(token, secret)]: the signature is checked first, then the
    expiry ([clockTimestamp >= exp] is expired). *)
Definition verify (token : Token) (secret : string) (now : Z) : Verified :=
  match token with
  | Opaque _ => Rejected JsonWebTokenError
  | Jws payload _ exp key =>
      if negb (String.eqb key secret) then Rejected JsonWebTokenError
      else if exp <=? clockTimestamp now then Rejected TokenExpiredError
      else Decoded payload
  end.

End jwt.

(** ** bcryptjs, symbolically

    A hash records its cost, its salt and the password it was computed from;
    bcrypt reads at most the first 72 bytes of its input. *)

Inductive Password :=
| Plain (s : string)
| Bcrypt (cost : Z) (salt : N) (pw : string).

Module bcrypt.

Definition truncate (s : string) : string := substring 0 72 s.

Definition hash (s : string) (saltRounds : Z) (salt : N) : Password :=
  Bcrypt saltRounds salt (truncate s).

(** [bcrypt.compare(candidate, hash)]; a string that is not a bcrypt hash
    compares false. *)
Definition compare (candidate : string) (h : Password) : bool :=
  match h with
  | Bcrypt _ _ pw => String.eqb (truncate candidate) pw
  | Plain _ => false
  end.

End bcrypt.

(** ** process.env *)

Record Env := {
  JWT_SECRET : string;
  JWT_REFRESH_SECRET : string;
  JWT_EXPIRE : option Z;          (* seconds; unset means '7d' *)
  JWT_REFRESH_EXPIRE : option Z;  (* seconds; unset means '30d' *)
  BCRYPT_ROUNDS : option Z
}.

(** [process.env.JWT_EXPIRE || '7d'] *)
Definition accessExpiresIn (env : Env) : Z :=
  match JWT_EXPIRE env with Some s => s | None => 7 * 24 * 60 * 60 end.

(** [process.env.JWT_REFRESH_EXPIRE || '30d'] *)
Definition refreshExpiresIn (env : Env) : Z :=
  match JWT_REFRESH_EXPIRE env with Some s => s | None => 30 * 24 * 60 * 60 end.

(** [parseInt(process.env.BCRYPT_ROUNDS) || 12] *)
Definition saltRounds (env : Env) : Z :=
  match BCRYPT_ROUNDS env with
  | Some n => if n =? 0 then 12 else n
  | None => 12
  end.

(** ** The user schema *)

Record RefreshToken := {
  token : Token;
  createdAt : Z
}.

Record User := {
  _id : ObjectId;
  name : string;
  email : string;
  password : option Password;              (* select: false *)
  role : Role;
  isActive : bool;
  isEmailVerified : bool;
  emailVerificationToken : option Token;   (* select: false *)
  passwordResetToken : option Token;       (* select: false *)
  passwordResetExpires : option Z;         (* select: false *)
  loginAttempts : Z;                       (* default 0 *)
  lockUntil : option Z;
  lastLogin : Z;
  refreshTokens : list RefreshToken
}.

Definition set_password (v : option Password) (u : User) : User :=
  {| _id := _id u; name := name u; email := email u; password := v;
     role := role u; isActive := isActive u;
     isEmailVerified := isEmailVerified u;
     emailVerificationToken := emailVerificationToken u;
     passwordResetToken := passwordResetToken u;
     passwordResetExpires := passwordResetExpires u;
     loginAttempts := loginAttempts u; lockUntil := lockUntil u;
     lastLogin := lastLogin u; refreshTokens := refreshTokens u |}.

Definition set_isEmailVerified (v : bool) (u : User) : User :=
  {| _id := _id u; name := name u; email := email u; password := password u;
     role := role u; isActive := isActive u;
     isEmailVerified := v;
     emailVerificationToken := emailVerificationToken u;
     passwordResetToken := passwordResetToken u;
     passwordResetExpires := passwordResetExpires u;
     loginAttempts := loginAttempts u; lockUntil := lockUntil u;
     lastLogin := lastLogin u; refreshTokens := refreshTokens u |}.

Definition set_emailVerificationToken (v : option Token) (u : User) : User :=
  {| _id := _id u; name := name u; email := email u; password := password u;
     role := role u; isActive := isActive u;
     isEmailVerified := isEmailVerified u;
     emailVerificationToken := v;
     passwordResetToken := passwordResetToken u;
     passwordResetExpires := passwordResetExpires u;
     loginAttempts := loginAttempts u; lockUntil := lockUntil u;
     lastLogin := lastLogin u; refreshTokens := refreshTokens u |}.

Definition set_passwordResetToken (v : option Token) (u : User) : User :=
  {| _id := _id u; name := name u; email := email u; password := password u;
     role := role u; isActive := isActive u;
     isEmailVerified := isEmailVerified u;
     emailVerificationToken := emailVerificationToken u;
     passwordResetToken := v;
     passwordResetExpires := passwordResetExpires u;
     loginAttempts := loginAttempts u; lockUntil := lockUntil u;
     lastLogin := lastLogin u; refreshTokens := refreshTokens u |}.

Definition set_passwordResetExpires (v : option Z) (u : User) : User :=
  {| _id := _id u; name := name u; email := email u; password := password u;
     role := role u; isActive := isActive u;
     isEmailVerified := isEmailVerified u;
     emailVerificationToken := emailVerificationToken u;
     passwordResetToken := passwordResetToken u;
     passwordResetExpires := v;
     loginAttempts := loginAttempts u; lockUntil := lockUntil u;
     lastLogin := lastLogin u; refreshTokens := refreshTokens u |}.

Definition set_loginAttempts (v : Z) (u : User) : User :=
  {| _id := _id u; name := name u; email := email u; password := password u;
     role := role u; isActive := isActive u;
     isEmailVerified := isEmailVerified u;
     emailVerificationToken := emailVerificationToken u;
     passwordResetToken := passwordResetToken u;
     passwordResetExpires := passwordResetExpires u;
     loginAttempts := v; lockUntil := lockUntil u;
     lastLogin := lastLogin u; refreshTokens := refreshTokens u |}.

Definition set_lockUntil (v : option Z) (u : User) : User :=
  {| _id := _id u; name := name u; email := email u; password := password u;
     role := role u; isActive := isActive u;
     isEmailVerified := isEmailVerified u;
     emailVerificationToken := emailVerificationToken u;
     passwordResetToken := passwordResetToken u;
     passwordResetExpires := passwordResetExpires u;
     loginAttempts := loginAttempts u; lockUntil := v;
     lastLogin := lastLogin u; refreshTokens := refreshTokens u |}.

Definition set_lastLogin (v : Z) (u : User) : User :=
  {| _id := _id u; name := name u; email := email u; password := password u;
     role := role u; isActive := isActive u;
     isEmailVerified := isEmailVerified u;
     emailVerificationToken := emailVerificationToken u;
     passwordResetToken := passwordResetToken u;
     passwordResetExpires := passwordResetExpires u;
     loginAttempts := loginAttempts u; lockUntil := lockUntil u;
     lastLogin := v; refreshTokens := refreshTokens u |}.

Definition set_refreshTokens (v : list RefreshToken) (u : User) : User :=
  {| _id := _id u; name := name u; email := email u; password := password u;
     role := role u; isActive := isActive u;
     isEmailVerified := isEmailVerified u;
     emailVerificationToken := emailVerificationToken u;
     passwordResetToken := passwordResetToken u;
     passwordResetExpires := passwordResetExpires u;
     loginAttempts := loginAttempts u; lockUntil := lockUntil u;
     lastLogin := lastLogin u; refreshTokens := v |}.

(** ** Mongoose documents and the collection

    A query returns a document without its [select: false] paths unless they
    are asked for; an assignment marks its path modified; [save] runs the
    pre-save hook and writes the modified paths back (a new document is
    inserted whole); [updateOne] edits the stored document directly. *)

Inductive Path :=
| p_password | p_isEmailVerified | p_emailVerificationToken
| p_passwordResetToken | p_passwordResetExpires | p_lastLogin
| p_refreshTokens.

Definition Path_eq_dec (a b : Path) : {a = b} + {a <> b}.
Proof. decide equality. Defined.

Record Document := {
  this : User;
  isNew : bool;
  modifiedPaths : list Path
}.

Definition Collection := list User.

Definition isModified (d : Document) (p : Path) : bool :=
  existsb (fun q => if Path_eq_dec p q then true else false) (modifiedPaths d).

(** [doc.path = v] *)
Definition assign (p : Path) (f : User -> User) (d : Document) : Document :=
  {| this := f (this d); isNew := isNew d;
     modifiedPaths := p :: modifiedPaths d |}.

(** The default projection: the [select: false] paths are absent. *)
Definition deselect (u : User) : User :=
  set_password None
    (set_emailVerificationToken None
       (set_passwordResetToken None
          (set_passwordResetExpires None u))).

Definition hydrate (u : User) : Document :=
  {| this := u; isNew := false; modifiedPaths := [] |}.

(** What the collection answers, before the projection. *)
Definition lookup_id (db : Collection) (id : ObjectId) : option User :=
  find (fun u => Nat.eqb (_id u) id) db.

Definition lookup_email (db : Collection) (e : string) : option User :=
  find (fun u => String.eqb (email u) e) db.

(** [User.findById(id)] *)
Definition findById (db : Collection) (id : ObjectId) : option Document :=
  option_map (fun u => hydrate (deselect u)) (lookup_id db id).

(** [User.findOne({ email })] *)
Definition findOne (db : Collection) (e : string) : option Document :=
  option_map (fun u => hydrate (deselect u)) (lookup_email db e).

(** [User.findOne({ email }).select('+password')] *)
Definition findOne_select_password (db : Collection) (e : string)
  : option Document :=
  option_map (fun u => hydrate (set_password (password u) (deselect u)))
             (lookup_email db e).

(** [doc.updateOne(update)]: the first stored document with this [_id]. *)
Fixpoint updateOne (db : Collection) (id : ObjectId) (f : User -> User)
  : Collection :=
  match db with
  | [] => []
  | u :: rest =>
      if Nat.eqb (_id u) id then f u :: rest
      else u :: updateOne rest id f
  end.

Definition write_path (src : User) (p : Path) (dst : User) : User :=
  match p with
  | p_password => set_password (password src) dst
  | p_isEmailVerified => set_isEmailVerified (isEmailVerified src) dst
  | p_emailVerificationToken =>
      set_emailVerificationToken (emailVerificationToken src) dst
  | p_passwordResetToken => set_passwordResetToken (passwordResetToken src) dst
  | p_passwordResetExpires =>
      set_passwordResetExpires (passwordResetExpires src) dst
  | p_lastLogin => set_lastLogin (lastLogin src) dst
  | p_refreshTokens => set_refreshTokens (refreshTokens src) dst
  end.

(** [userSchema.pre('save')]: hash the password only when it was modified.
    A handler that modifies the path always assigns a plain string to it. *)
Definition pre_save (env : Env) (salt : N) (d : Document) : Document :=
  if negb (isModified d p_password) then d
  else
    match password (this d) with
    | Some (Plain s) =>
        {| this := set_password
                     (Some (bcrypt.hash s (saltRounds env) salt)) (this d);
           isNew := isNew d; modifiedPaths := modifiedPaths d |}
    | _ => d
    end.

(** [await doc.save()] *)
Definition save (env : Env) (salt : N) (db : Collection) (d : Document)
  : Collection * Document :=
  let d := pre_save env salt d in
  let db' :=
    if isNew d then db ++ [this d]
    else updateOne db (_id (this d))
           (fun stored => fold_right (write_path (this d)) stored
                                     (modifiedPaths d)) in
  (db', hydrate (this d)).

(** A fresh [ObjectId] for [new User(...)]. *)
Definition newObjectId (db : Collection) : ObjectId :=
  S (fold_right Nat.max O (map _id db)).

(** [new User({ name, email, password })] with the schema defaults. *)
Definition new_User (db : Collection) (now : Z) (n e pw : string) : Document :=
  {| this := {| _id := newObjectId db; name := n; email := e;
                password := Some (Plain pw); role := role_user;
                isActive := true; isEmailVerified := false;
                emailVerificationToken := None; passwordResetToken := None;
                passwordResetExpires := None; loginAttempts := 0;
                lockUntil := None; lastLogin := now; refreshTokens := [] |};
     isNew := true; modifiedPaths := [p_password] |}.

(** ** Schema methods and virtuals *)

(** [!!(this.lockUntil && this.lockUntil > Date.now())] *)
Definition isLocked (now : Z) (u : User) : bool :=
  match lockUntil u with
  | Some t => now <? t
  | None => false
  end.

(** [bcrypt.compare(candidatePassword, this.password)] *)
Definition comparePassword (u : User) (candidatePassword : string) : bool :=
  match password u with
  | Some h => bcrypt.compare candidatePassword h
  | None => false
  end.

Definition generateAuthToken (env : Env) (now : Z) (u : User) : Token :=
  jwt.sign {| jwt_id := _id u; jwt_email := Some (email u);
              jwt_role := Some (role u); jwt_type := None |}
           (JWT_SECRET env) (accessExpiresIn env) now.

(** [arr.slice(-n)] *)
Definition slice_last {A} (n : nat) (l : list A) : list A :=
  skipn (List.length l - n)%nat l.

Definition generateRefreshToken (env : Env) (now : Z) (d : Document)
  : Token * Document :=
  let tok := jwt.sign {| jwt_id := _id (this d); jwt_email := None;
                         jwt_role := None; jwt_type := None |}
                      (JWT_REFRESH_SECRET env) (refreshExpiresIn env) now in
  (* this.refreshTokens.push({ token }) *)
  let d := assign p_refreshTokens
             (fun u => set_refreshTokens
                         (refreshTokens u ++ [{| token := tok; createdAt := now |}]) u)
             d in
  (* keep only the last 5 *)
  let d := if (5 <? List.length (refreshTokens (this d)))%nat
           then assign p_refreshTokens
                  (fun u => set_refreshTokens
                              (slice_last 5 (refreshTokens u)) u) d
           else d in
  (tok, d).

Definition removeRefreshToken (t : Token) (d : Document) : Document :=
  assign p_refreshTokens
    (fun u => set_refreshTokens
                (filter (fun r => negb (Token_eqb (token r) t))
                        (refreshTokens u)) u) d.

Definition verifies (env : Env) (now : Z) (r : RefreshToken) : bool :=
  match jwt.verify (token r) (JWT_REFRESH_SECRET env) now with
  | Decoded _ => true
  | Rejected _ => false
  end.

Definition cleanupRefreshTokens (env : Env) (now : Z) (d : Document)
  : Document :=
  assign p_refreshTokens
    (fun u => set_refreshTokens (filter (verifies env now) (refreshTokens u)) u)
    d.

Definition generateEmailVerificationToken (env : Env) (now : Z) (d : Document)
  : Token * Document :=
  let tok := jwt.sign {| jwt_id := _id (this d); jwt_email := None;
                         jwt_role := None;
                         jwt_type := Some "email_verification" |}
                      (JWT_SECRET env) (24 * 60 * 60) now in
  (tok, assign p_emailVerificationToken
          (set_emailVerificationToken (Some tok)) d).

Definition generatePasswordResetToken (env : Env) (now : Z) (d : Document)
  : Token * Document :=
  let tok := jwt.sign {| jwt_id := _id (this d); jwt_email := None;
                         jwt_role := None; jwt_type := Some "password_reset" |}
                      (JWT_SECRET env) (60 * 60) now in
  let d := assign p_passwordResetToken (set_passwordResetToken (Some tok)) d in
  let d := assign p_passwordResetExpires
             (set_passwordResetExpires (Some (now + 60 * 60 * 1000))) d in
  (tok, d).

Definition maxAttempts : Z := 5.
Definition lockTime : Z := 2 * 60 * 60 * 1000.

(** [this.lockUntil && this.lockUntil < Date.now()] *)
Definition lockExpired (now : Z) (u : User) : bool :=
  match lockUntil u with
  | Some t => t <? now
  | None => false
  end.

Definition incLoginAttempts (now : Z) (db : Collection) (u : User)
  : Collection :=
  if lockExpired now u then
    updateOne db (_id u)
      (fun s => set_lockUntil None (set_loginAttempts 1 s))
  else
    let inc := fun s => set_loginAttempts (loginAttempts s + 1) s in
    if (maxAttempts <=? loginAttempts u + 1) && negb (isLocked now u) then
      updateOne db (_id u)
        (fun s => set_lockUntil (Some (now + lockTime)) (inc s))
    else
      updateOne db (_id u) inc.

(** ** The email service

    [sendMail] catches every transport error and reports it in its result;
    the senders built on it therefore return and never throw. *)

Record EmailService := {
  isEnabled : bool;
  transportDelivers : bool
}.

Record MailResult := { success : bool }.

Inductive Completion (A : Type) :=
| Returned (a : A)
| Thrown.
Arguments Returned {A} a.
Arguments Thrown {A}.

Definition sendMail (svc : EmailService) : MailResult :=
  if negb (isEnabled svc) then {| success := false |}
  else {| success := transportDelivers svc |}.

Definition sendWelcomeEmail (svc : EmailService) (u : User)
  : Completion MailResult := Returned (sendMail svc).

Definition sendPasswordReset (svc : EmailService) (u : User) (t : Token)
  : Completion MailResult := Returned (sendMail svc).

(** ** Requests and responses *)

Record UserView := {
  view_id : ObjectId;
  view_name : string;
  view_email : string;
  view_role : Role;
  view_isEmailVerified : bool;
  view_lastLogin : option Z
}.

Inductive Data :=
| NoData
| Session (u : UserView) (token refreshToken : Token)
| Tokens (token refreshToken : Token).

Record Response := {
  status : Z;
  body_status : string;
  message : string;
  data : Data
}.

Definition json (st : Z) (s m : string) (d : Data) : Response :=
  {| status := st; body_status := s; message := m; data := d |}.

Definition fail (st : Z) (m : string) : Response := json st "fail" m NoData.

(** [!value] for a body field that should hold a token string. *)
Definition falsy (t : option Token) : bool :=
  match t with
  | None => true
  | Some (Opaque EmptyString) => true
  | Some _ => false
  end.

(** [decoded.type === s] *)
Definition type_is (decoded : Payload) (s : string) : bool :=
  match jwt_type decoded with
  | Some t => String.eqb t s
  | None => false
  end.

(** ** Route handlers *)

(** POST /api/auth/register *)
Definition register (env : Env) (svc : EmailService) (now : Z) (salt : N)
           (db : Collection) (name_ email_ password_ : string)
  : Collection * Response :=
  match findOne db email_ with
  | Some _ => (db, fail 400 "User with this email already exists")
  | None =>
      let user := new_User db now name_ email_ password_ in
      let '(db, user) := save env salt db user in
      let authToken := generateAuthToken env now (this user) in
      let '(refreshToken, user) := generateRefreshToken env now user in
      let '(db, user) := save env salt db user in
      (* a welcome email that could not be sent is only logged *)
      let _ := sendWelcomeEmail svc (this user) in
      (db, json 201 "success" "User registered successfully"
             (Session {| view_id := _id (this user);
                         view_name := name (this user);
                         view_email := email (this user);
                         view_role := role (this user);
                         view_isEmailVerified := isEmailVerified (this user);
                         view_lastLogin := None |}
                      authToken refreshToken))
  end.

(** POST /api/auth/login *)
Definition login (env : Env) (now : Z) (salt : N) (db : Collection)
           (email_ password_ : string) : Collection * Response :=
  match findOne_select_password db email_ with
  | None => (db, fail 401 "Invalid email or password")
  | Some user =>
      if isLocked now (this user) then
        (db, fail 423
               "Account temporarily locked due to too many failed login attempts")
      else if negb (isActive (this user)) then
        (db, fail 401 "Account is deactivated")
      else if negb (comparePassword (this user) password_) then
        (incLoginAttempts now db (this user),
         fail 401 "Invalid email or password")
      else
        (* reset login attempts on successful login: [$unset] of both
           paths; an absent counter reads back as its default, 0 *)
        let db :=
          if 0 <? loginAttempts (this user) then
            updateOne db (_id (this user))
              (fun s => set_lockUntil None (set_loginAttempts 0 s))
          else db in
        let user := assign p_lastLogin (set_lastLogin now) user in
        let '(db, user) := save env salt db user in
        let authToken := generateAuthToken env now (this user) in
        let '(refreshToken, user) := generateRefreshToken env now user in
        let '(db, user) := save env salt db user in
        (db, json 200 "success" "Login successful"
               (Session {| view_id := _id (this user);
                           view_name := name (this user);
                           view_email := email (this user);
                           view_role := role (this user);
                           view_isEmailVerified := isEmailVerified (this user);
                           view_lastLogin := Some (lastLogin (this user)) |}
                        authToken refreshToken))
  end.

(** [verifyRefreshToken] of the auth middleware *)
Definition verifyRefreshToken (env : Env) (now : Z) (t : Token) : Verified :=
  jwt.verify t (JWT_REFRESH_SECRET env) now.

(** [user.refreshTokens.some(tokenObj => tokenObj.token === refreshToken)] *)
Definition tokenExists (u : User) (t : Token) : bool :=
  existsb (fun tokenObj => Token_eqb (token tokenObj) t) (refreshTokens u).

(** POST /api/auth/refresh *)
Definition refresh (env : Env) (now : Z) (salt : N) (db : Collection)
           (refreshToken : option Token) : Collection * Response :=
  match refreshToken with
  | None => (db, fail 401 "Refresh token is required")
  | Some t =>
      if falsy refreshToken then (db, fail 401 "Refresh token is required")
      else
        match verifyRefreshToken env now t with
        | Rejected _ => (db, fail 401 "Invalid or expired refresh token")
        | Decoded decoded =>
            match findById db (jwt_id decoded) with
            | None => (db, fail 401 "User not found")
            | Some user =>
                if negb (isActive (this user)) then
                  (db, fail 401 "Account is deactivated")
                else if negb (tokenExists (this user) t) then
                  (db, fail 401 "Invalid refresh token")
                else
                  let user := cleanupRefreshTokens env now user in
                  let newAuthToken := generateAuthToken env now (this user) in
                  let '(newRefreshToken, user) :=
                    generateRefreshToken env now user in
                  let '(db, user) := save env salt db user in
                  (db, json 200 "success" "Token refreshed successfully"
                         (Tokens newAuthToken newRefreshToken))
            end
        end
  end.

(** POST /api/auth/logout, behind [authenticate]: [user] is [req.user]. *)
Definition logout (env : Env) (salt : N) (db : Collection) (user : Document)
           (refreshToken : option Token) : Collection * Response :=
  let user :=
    match refreshToken with
    | Some t =>
        if falsy refreshToken
        then assign p_refreshTokens (set_refreshTokens []) user
        else removeRefreshToken t user
    | None => assign p_refreshTokens (set_refreshTokens []) user
    end in
  let '(db, user) := save env salt db user in
  (db, json 200 "success" "Logged out successfully" NoData).

(** POST /api/auth/verify-email *)
Definition verifyEmail (env : Env) (now : Z) (salt : N) (db : Collection)
           (token_ : option Token) : Collection * Response :=
  match token_ with
  | None => (db, fail 400 "Verification token is required")
  | Some t =>
      if falsy token_ then (db, fail 400 "Verification token is required")
      else
        match jwt.verify t (JWT_SECRET env) now with
        | Rejected TokenExpiredError =>
            (db, fail 400 "Verification token has expired")
        | Rejected JsonWebTokenError =>
            (db, fail 400 "Invalid verification token")
        | Decoded decoded =>
            if negb (type_is decoded "email_verification") then
              (db, fail 400 "Invalid verification token")
            else
              match findById db (jwt_id decoded) with
              | None => (db, fail 404 "User not found")
              | Some user =>
                  if isEmailVerified (this user) then
                    (db, fail 400 "Email is already verified")
                  else
                    let user :=
                      assign p_isEmailVerified (set_isEmailVerified true) user in
                    let user :=
                      assign p_emailVerificationToken
                             (set_emailVerificationToken None) user in
                    let '(db, user) := save env salt db user in
                    (db, json 200 "success" "Email verified successfully"
                           NoData)
              end
        end
  end.

(** POST /api/auth/forgot-password *)
Definition forgotPassword (env : Env) (svc : EmailService) (now : Z)
           (salt : N) (db : Collection) (email_ : string)
  : Collection * Response :=
  match findOne db email_ with
  | None =>
      (db, json 200 "success"
             "If a user with that email exists, we have sent a password reset link"
             NoData)
  | Some user =>
      let '(resetToken, user) := generatePasswordResetToken env now user in
      let '(db, user) := save env salt db user in
      match sendPasswordReset svc (this user) resetToken with
      | Returned _ =>
          (db, json 200 "success" "Password reset email sent successfully"
                 NoData)
      | Thrown =>
          let user :=
            assign p_passwordResetToken (set_passwordResetToken None) user in
          let user :=
            assign p_passwordResetExpires
                   (set_passwordResetExpires None) user in
          let '(db, user) := save env salt db user in
          (db, fail 500 "Could not send password reset email")
      end
  end.

(** [user.passwordResetExpires < Date.now()] *)
Definition resetExpired (now : Z) (u : User) : bool :=
  match passwordResetExpires u with
  | Some e => e <? now
  | None => false
  end.

(** The success effects of POST /api/auth/reset-password: the four
    assignments and the [save]. *)
Definition resetPassword_apply (env : Env) (salt : N) (db : Collection)
           (user : Document) (password_ : string) : Collection * Document :=
  let user := assign p_password (set_password (Some (Plain password_))) user in
  let user := assign p_passwordResetToken (set_passwordResetToken None) user in
  let user :=
    assign p_passwordResetExpires (set_passwordResetExpires None) user in
  let user := assign p_refreshTokens (set_refreshTokens []) user in
  save env salt db user.

(** POST /api/auth/reset-password *)
Definition resetPassword (env : Env) (now : Z) (salt : N) (db : Collection)
           (token_ : Token) (password_ : string) : Collection * Response :=
  match jwt.verify token_ (JWT_SECRET env) now with
  | Rejected _ => (db, fail 400 "Invalid or expired reset token")
  | Decoded decoded =>
      if negb (type_is decoded "password_reset") then
        (db, fail 400 "Invalid reset token")
      else
        match findById db (jwt_id decoded) with
        | None => (db, fail 404 "User not found")
        | Some user =>
            match passwordResetToken (this user) with
            | None => (db, fail 400 "Invalid or expired reset token")
            | Some stored =>
                if negb (Token_eqb stored token_) then
                  (db, fail 400 "Invalid or expired reset token")
                else if resetExpired now (this user) then
                  (db, fail 400 "Reset token has expired")
                else
                  let '(db, user) :=
                    resetPassword_apply env salt db user password_ in
                  (db, json 200 "success" "Password reset successfully" NoData)
            end
        end
  end.

(** ** The HTTP auth gate *)

(** The Authorization header as [.split(' ')] sees it: its words. *)
Definition Header := list Token.

(** [header.startsWith('Bearer')]: a signed token never starts with it. *)
Definition startsWith_Bearer (h : Header) : bool :=
  match h with
  | Opaque s :: _ => prefix "Bearer" s
  | _ => false
  end.

Inductive Next :=
| next_AppError (message : string) (statusCode : Z)
| next_user (u : User).

(** [authenticate]; its query, [findById(...).select('-password')], returns
    the default projection. *)
Definition authenticate (env : Env) (now : Z) (db : Collection)
           (authorization : option Header) : Next :=
  let token_ :=
    match authorization with
    | Some h => if startsWith_Bearer h then nth_error h 1 else None
    | None => None
    end in
  match token_ with
  | None => next_AppError "Access token is required" 401
  | Some t =>
      if falsy token_ then next_AppError "Access token is required" 401
      else
        match jwt.verify t (JWT_SECRET env) now with
        | Rejected JsonWebTokenError => next_AppError "Invalid token" 401
        | Rejected TokenExpiredError => next_AppError "Token expired" 401
        | Decoded decoded =>
            match findById db (jwt_id decoded) with
            | None => next_AppError "User no longer exists" 401
            | Some user =>
                if negb (isActive (this user)) then
                  next_AppError "Account is deactivated" 401
                else next_user (this user)
            end
        end
  end.

(** ** The remaining auth routes *)

Definition sendEmailVerification (svc : EmailService) (u : User) (t : Token)
  : Completion MailResult := Returned (sendMail svc).

(** [!value] for a body field that should hold a string. *)
Definition falsy_string (s : option string) : bool :=
  match s with
  | None => true
  | Some EmptyString => true
  | Some _ => false
  end.

(** POST /api/auth/send-verification, behind [authenticate]: [user] is
    [req.user]. *)
Definition sendVerification (env : Env) (svc : EmailService) (now : Z)
           (salt : N) (db : Collection) (user : Document)
  : Collection * Response :=
  if isEmailVerified (this user) then
    (db, fail 400 "Email is already verified")
  else
    let '(verificationToken, user) :=
      generateEmailVerificationToken env now user in
    let '(db, user) := save env salt db user in
    match sendEmailVerification svc (this user) verificationToken with
    | Returned _ =>
        (db, json 200 "success" "Verification email sent successfully" NoData)
    | Thrown => (db, fail 500 "Could not send verification email")
    end.

(** [User.findById(id).select('+password')] *)
Definition findById_select_password (db : Collection) (id : ObjectId)
  : option Document :=
  option_map (fun u => hydrate (set_password (password u) (deselect u)))
             (lookup_id db id).

(** PATCH /api/auth/change-password, behind [authenticate].  Two steps of
    this handler leave it by an exception, which the error middleware
    receives: calling [comparePassword] on a user that is no longer stored,
    and the schema's [minlength: 8] validator, which [save] runs on the
    assigned password ahead of the hashing hook (the length is counted on
    the byte string, which is the validator's count on an ASCII
    password). *)
Definition changePassword (env : Env) (salt : N) (db : Collection)
           (req_user : User) (currentPassword newPassword : option string)
  : Completion (Collection * Response) :=
  match currentPassword, newPassword with
  | Some current, Some new =>
      if falsy_string currentPassword || falsy_string newPassword then
        Returned
          (db, fail 400 "Current password and new password are required")
      else
        match findById_select_password db (_id req_user) with
        | None => Thrown
        | Some user =>
            if negb (comparePassword (this user) current) then
              Returned (db, fail 400 "Current password is incorrect")
            else
              let user :=
                assign p_password (set_password (Some (Plain new))) user in
              let user :=
                assign p_refreshTokens (set_refreshTokens []) user in
              if (String.length new <? 8)%nat then Thrown
              else
                let '(db, user) := save env salt db user in
                Returned
                  (db, json 200 "success" "Password changed successfully"
                         NoData)
        end
  | _, _ =>
      Returned (db, fail 400 "Current password and new password are required")
  end.

(** ** The other gates of the auth middleware *)

(** The bearer token both HTTP gates read off the Authorization header. *)
Definition bearer_token (authorization : option Header) : option Token :=
  match authorization with
  | Some h => if startsWith_Bearer h then nth_error h 1 else None
  | None => None
  end.

(** [optionalAuth]: the user it attaches to the request, if any; the request
    always proceeds. *)
Definition optionalAuth (env : Env) (now : Z) (db : Collection)
           (authorization : option Header) : option User :=
  let token_ := bearer_token authorization in
  match token_ with
  | None => None
  | Some t =>
      if falsy token_ then None
      else
        match jwt.verify t (JWT_SECRET env) now with
        | Rejected _ => None
        | Decoded decoded =>
            match findById db (jwt_id decoded) with
            | None => None
            | Some user =>
                if isActive (this user) then Some (this user) else None
            end
        end
  end.

Inductive Gate :=
| gate_next
| gate_AppError (message : string) (statusCode : Z).

(** [authorize(...roles)] *)
Definition authorize (roles : list Role) (req_user : option User) : Gate :=
  match req_user with
  | None => gate_AppError "Authentication required" 401
  | Some u =>
      if negb (existsb (fun r => if Role_eq_dec r (role u) then true else false)
                       roles)
      then gate_AppError "Insufficient permissions" 403
      else gate_next
  end.

(** [requireEmailVerification] *)
Definition requireEmailVerification (req_user : option User) : Gate :=
  match req_user with
  | None => gate_AppError "Authentication required" 401
  | Some u =>
      if negb (isEmailVerified u)
      then gate_AppError "Email verification required" 403
      else gate_next
  end.

(** What [Model.findById(req.params.id)] returns to [checkOwnership]: the
    value of the owner field, absent when the document lacks it. *)
Record Resource := { ownerField : option ObjectId }.

(** [checkOwnership(Model, ownerField)], on the outcome of the query and the
    user [authenticate] attached.  Reading [.toString()] off a missing owner
    field throws, and the handler's catch answers 500. *)
Definition checkOwnership (resource : option Resource) (req_user : User)
  : Gate :=
  match resource with
  | None => gate_AppError "Resource not found" 404
  | Some r =>
      match ownerField r with
      | None => gate_AppError "Error checking resource ownership" 500
      | Some owner =>
          if negb (Nat.eqb owner (_id req_user))
             && negb (if Role_eq_dec (role req_user) role_admin
                      then true else false)
          then gate_AppError "Not authorized to access this resource" 403
          else gate_next
      end
  end.

(** [generateToken], [generateRefreshToken] of the auth middleware; the
    schema method of the same name is [generateRefreshToken] above. *)
Module middleware.

Definition generateToken (env : Env) (now : Z) (id : ObjectId) : Token :=
  jwt.sign {| jwt_id := id; jwt_email := None; jwt_role := None;
              jwt_type := None |}
           (JWT_SECRET env) (accessExpiresIn env) now.

Definition generateRefreshToken (env : Env) (now : Z) (id : ObjectId)
  : Token :=
  jwt.sign {| jwt_id := id; jwt_email := None; jwt_role := None;
              jwt_type := None |}
           (JWT_REFRESH_SECRET env) (refreshExpiresIn env) now.

End middleware.

(** ** The realtime auth gate *)





(** [authorizeSocket(...roles)] *)
Definition authorizeSocket (roles : list Role) (socket_user_ : option User)
  : option string :=
  match socket_user_ with
  | None => Some "Authentication required"
  | Some u =>
      if negb (existsb (fun r => if Role_eq_dec r (role u) then true else false)
                       roles)
      then Some "Insufficient permissions"
      else None
  end.

(** ** The user routes *)

(** [doc.deleteOne()] *)
Fixpoint deleteOne (db : Collection) (id : ObjectId) : Collection :=
  match db with
  | [] => []
  | u :: rest =>
      if Nat.eqb (_id u) id then rest else u :: deleteOne rest id
  end.

Inductive Outcome :=
| responded (r : Response)
| threw_AppError (message : string) (statusCode : Z).

(** DELETE /api/users/:id.  The route is mounted behind [authenticate] and
    nothing else. *)
Definition deleteUser (env : Env) (now : Z) (db : Collection)
           (authorization_ : option Header) (id : ObjectId)
  : Collection * Outcome :=
  match authenticate env now db authorization_ with
  | next_AppError m c => (db, threw_AppError m c)
  | next_user _ =>
      match findById db id with
      | None => (db, threw_AppError "User not found" 404)
      | Some user =>
          (deleteOne db (_id (this user)),
           responded (json 200 "success" "User deleted successfully" NoData))
      end
  end.

(** * Vocabulary of the properties *)

(** Update functions that leave the key fields alone. *)
Definition keeps_id (f : User -> User) : Prop := forall s, _id (f s) = _id s.

Definition keeps_email (f : User -> User) : Prop :=
  forall s, email (f s) = email s.

(** The refresh token [generateRefreshToken] signs at [now] for [id]. *)
Definition issued_refresh_token (env : Env) (now : Z) (id : ObjectId)
  : Token :=
  jwt.sign {| jwt_id := id; jwt_email := None; jwt_role := None;
              jwt_type := None |}
           (JWT_REFRESH_SECRET env) (refreshExpiresIn env) now.

Definition new_entry (env : Env) (now : Z) (id : ObjectId) : RefreshToken :=
  {| token := issued_refresh_token env now id; createdAt := now |}.

(** The list [generateRefreshToken] leaves on a document that held [l]. *)
Definition rotated (env : Env) (now : Z) (id : ObjectId)
           (l : list RefreshToken) : list RefreshToken :=
  slice_last 5 (l ++ [new_entry env now id]).

(** The session cap, on a document and on the collection. *)
Definition capped_user (u : User) : Prop :=
  (List.length (refreshTokens u) <= 5)%nat.

Definition capped (db : Collection) : Prop := Forall capped_user db.

(** The responses of [login]. *)
Definition locked_response : Response :=
  fail 423 "Account temporarily locked due to too many failed login attempts".

Definition invalid_credentials : Response :=
  fail 401 "Invalid email or password".

Definition deactivated_response : Response :=
  fail 401 "Account is deactivated".

Definition login_success_response (env : Env) (now : Z) (u : User)
  : Response :=
  json 200 "success" "Login successful"
    (Session {| view_id := _id u; view_name := name u; view_email := email u;
                view_role := role u;
                view_isEmailVerified := isEmailVerified u;
                view_lastLogin := Some now |}
             (generateAuthToken env now u)
             (issued_refresh_token env now (_id u))).

(** The stored document after [incLoginAttempts]. *)
Definition after_failed_attempt (now : Z) (u : User) : User :=
  if lockExpired now u then set_lockUntil None (set_loginAttempts 1 u)
  else if (maxAttempts <=? loginAttempts u + 1) && negb (isLocked now u)
       then set_lockUntil (Some (now + lockTime))
              (set_loginAttempts (loginAttempts u + 1) u)
       else set_loginAttempts (loginAttempts u + 1) u.

(** The collection after a successful [login] of [u]. *)
Definition login_success_db (env : Env) (now : Z) (db : Collection) (u : User)
  : Collection :=
  let db1 := if 0 <? loginAttempts u
             then updateOne db (_id u)
                    (fun s => set_lockUntil None (set_loginAttempts 0 s))
             else db in
  let db2 := updateOne db1 (_id u) (set_lastLogin now) in
  updateOne db2 (_id u)
    (set_refreshTokens (rotated env now (_id u) (refreshTokens u))).

(** Consecutive login attempts with the same credentials, one per instant. *)
Fixpoint logins (env : Env) (salt : N) (db : Collection) (e pw : string)
         (times : list Z) : Collection :=
  match times with
  | [] => db
  | t :: rest => logins env salt (fst (login env t salt db e pw)) e pw rest
  end.

(** The responses of [refresh] and the collection it leaves on success. *)
Definition refresh_success_response (env : Env) (now : Z) (u : User)
  : Response :=
  json 200 "success" "Token refreshed successfully"
    (Tokens (generateAuthToken env now u)
            (issued_refresh_token env now (_id u))).

Definition refresh_success_list (env : Env) (now : Z) (u : User)
  : list RefreshToken :=
  rotated env now (_id u) (filter (verifies env now) (refreshTokens u)).

Definition refresh_success_db (env : Env) (now : Z) (db : Collection)
           (u : User) : Collection :=
  updateOne db (_id u) (set_refreshTokens (refresh_success_list env now u)).

(** The document [register] stores. *)
Definition registered (env : Env) (now : Z) (salt : N) (db : Collection)
           (n e pw : string) : User :=
  {| _id := newObjectId db; name := n; email := e;
     password := Some (bcrypt.hash pw (saltRounds env) salt);
     role := role_user; isActive := true; isEmailVerified := false;
     emailVerificationToken := None; passwordResetToken := None;
     passwordResetExpires := None; loginAttempts := 0; lockUntil := None;
     lastLogin := now;
     refreshTokens := [new_entry env now (newObjectId db)] |}.

Definition register_success_response (env : Env) (now : Z) (db : Collection)
           (n e : string) : Response :=
  json 201 "success" "User registered successfully"
    (Session {| view_id := newObjectId db; view_name := n; view_email := e;
                view_role := role_user; view_isEmailVerified := false;
                view_lastLogin := None |}
             (jwt.sign {| jwt_id := newObjectId db; jwt_email := Some e;
                          jwt_role := Some role_user; jwt_type := None |}
                       (JWT_SECRET env) (accessExpiresIn env) now)
             (issued_refresh_token env now (newObjectId db))).

(** ** Sample data for the worked instances *)

Definition env0 : Env :=
  {| JWT_SECRET := "access-secret"; JWT_REFRESH_SECRET := "refresh-secret";
     JWT_EXPIRE := None; JWT_REFRESH_EXPIRE := None; BCRYPT_ROUNDS := None |}.

Definition svc0 : EmailService :=
  {| isEnabled := true; transportDelivers := true |}.

(** alice, registered and idle. *)
Definition alice : User :=
  {| _id := 1%nat; name := "alice"; email := "alice@example.com";
     password := Some (Bcrypt 12 7 "Password1!"); role := role_user;
     isActive := true; isEmailVerified := false;
     emailVerificationToken := None; passwordResetToken := None;
     passwordResetExpires := None; loginAttempts := 0; lockUntil := None;
     lastLogin := 1000; refreshTokens := [] |}.

(** alice after five failures, the last one at instant 1000. *)
Definition alice_locked : User :=
  set_lockUntil (Some (1000 + lockTime)) (set_loginAttempts 5 alice).

(** alice holding five live sessions, opened one second apart. *)
Definition alice_sessions : User :=
  set_refreshTokens
    (map (fun t => new_entry env0 t 1%nat) [1000; 2000; 3000; 4000; 5000])
    alice.

(** alice, deactivated. *)
Definition alice_deactivated : User :=
  {| _id := 1%nat; name := "alice"; email := "alice@example.com";
     password := Some (Bcrypt 12 7 "Password1!"); role := role_user;
     isActive := false; isEmailVerified := false;
     emailVerificationToken := None; passwordResetToken := None;
     passwordResetExpires := None; loginAttempts := 0; lockUntil := None;
     lastLogin := 1000; refreshTokens := [] |}.

(** The reset token [forgotPassword] issues to alice at instant 2000, and the
    collection it leaves. *)
Definition alice_reset_token : Token :=
  fst (generatePasswordResetToken env0 2000 (hydrate alice)).

Definition db_reset_requested : Collection :=
  fst (forgotPassword env0 svc0 2000 0%N [alice] "alice@example.com").

(** The verification token issued to alice at instant 2000. *)
Definition alice_verification_token : Token :=
  fst (generateEmailVerificationToken env0 2000 (hydrate alice)).

(** ** Proof steps shared by the handler lemmas *)

(** Reading fields of a document loaded with [.select('+password')]. *)
Ltac loaded_with_password u :=
  cbn [option_map this hydrate];
  change (isLocked ?n (set_password (password u) (deselect u)))
    with (isLocked n u);
  change (isActive (set_password (password u) (deselect u)))
    with (isActive u);
  change (comparePassword (set_password (password u) (deselect u)) ?p)
    with (comparePassword u p).

(** Reading fields of a document loaded with the default projection. *)
Ltac loaded u :=
  cbn [option_map this hydrate];
  change (isActive (deselect u)) with (isActive u);
  change (isEmailVerified (deselect u)) with (isEmailVerified u);
  change (tokenExists (deselect u) ?t) with (tokenExists u t).

(** ** Vocabulary of the further properties *)

(** [removeRefreshToken]'s filter. *)
Definition without_token (t : Token) (l : list RefreshToken)
  : list RefreshToken :=
  filter (fun r => negb (Token_eqb (token r) t)) l.

(** The verification token issued at [now] for [id]. *)
Definition issued_verification_token (env : Env) (now : Z) (id : ObjectId)
  : Token :=
  jwt.sign {| jwt_id := id; jwt_email := None; jwt_role := None;
              jwt_type := Some "email_verification" |}
           (JWT_SECRET env) (24 * 60 * 60) now.

(** The reset token issued at [now] for [id]. *)
Definition issued_reset_token (env : Env) (now : Z) (id : ObjectId) : Token :=
  jwt.sign {| jwt_id := id; jwt_email := None; jwt_role := None;
              jwt_type := Some "password_reset" |}
           (JWT_SECRET env) (60 * 60) now.

(** The stored document after a verified email. *)
Definition email_verified (u : User) : User :=
  set_emailVerificationToken None (set_isEmailVerified true u).

(** The stored document after a changed password. *)
Definition password_changed (env : Env) (salt : N) (new : string) (u : User)
  : User :=
  set_refreshTokens []
    (set_password (Some (bcrypt.hash new (saltRounds env) salt)) u).

(** The stored document after a successful login at [now]. *)
Definition logged_in (env : Env) (now : Z) (u : User) : User :=
  set_refreshTokens (rotated env now (_id u) (refreshTokens u))
    (set_lastLogin now
       (if 0 <? loginAttempts u
        then set_lockUntil None (set_loginAttempts 0 u) else u)).

(** ** Further sample data *)

(** bob, an administrator, and carol, an ordinary user. *)
Definition bob : User :=
  {| _id := 2%nat; name := "bob"; email := "bob@example.com";
     password := Some (Bcrypt 12 9 "Hunter22!"); role := role_admin;
     isActive := true; isEmailVerified := true;
     emailVerificationToken := None; passwordResetToken := None;
     passwordResetExpires := None; loginAttempts := 0; lockUntil := None;
     lastLogin := 1000; refreshTokens := [] |}.

Definition carol : User :=
  {| _id := 3%nat; name := "carol"; email := "carol@example.com";
     password := Some (Bcrypt 12 5 "Sw0rdfish!"); role := role_user;
     isActive := true; isEmailVerified := false;
     emailVerificationToken := None; passwordResetToken := None;
     passwordResetExpires := None; loginAttempts := 0; lockUntil := None;
     lastLogin := 1000; refreshTokens := [] |}.

(** alice once her lock, set at instant 1000, has run out, still carrying
    the five counted failures. *)
Definition alice_lock_over : Z := 1000 + lockTime.



(** Every stored password is a bcrypt hash. *)
Definition is_hash (u : User) : Prop :=
  exists cost salt pw, password u = Some (Bcrypt cost salt pw).

Definition passwords_hashed (db : Collection) : Prop := Forall is_hash db.

(** * Properties *)

(** ** The collection *)



Lemma lookup_id_In db id u : lookup_id db id = Some u -> In u db /\ _id u = id.
Proof.
  unfold lookup_id. intros H. apply find_some in H.
  destruct H as [Hin Heq]. apply Nat.eqb_eq in Heq. auto.
Qed.

Lemma lookup_email_In db e u :
  lookup_email db e = Some u -> In u db /\ email u = e.
Proof.
  unfold lookup_email. intros H. apply find_some in H.
  destruct H as [Hin Heq]. apply String.eqb_eq in Heq. auto.
Qed.

Lemma updateOne_ids db id f :
  keeps_id f -> map _id (updateOne db id f) = map _id db.
Proof.
  intros Hf. induction db as [|x rest IH]; simpl; [reflexivity|].
  destruct (Nat.eqb (_id x) id); simpl.
  - now rewrite Hf.
  - now rewrite IH.
Qed.

Lemma updateOne_absent db id f : lookup_id db id = None -> updateOne db id f = db.
Proof.
  unfold lookup_id. induction db as [|x rest IH]; simpl; [reflexivity|].
  destruct (Nat.eqb (_id x) id); [discriminate|].
  intros H. now rewrite IH.
Qed.

Lemma updateOne_lookup_same db id f u :
  keeps_id f -> lookup_id db id = Some u ->
  lookup_id (updateOne db id f) id = Some (f u).
Proof.
  unfold lookup_id. intros Hf.
  induction db as [|x rest IH]; simpl; [discriminate|].
  destruct (Nat.eqb (_id x) id) eqn:E; simpl.
  - intros H. inversion H; subst. now rewrite Hf, E.
  - rewrite E. exact IH.
Qed.

Lemma updateOne_lookup_other db id id' f :
  keeps_id f -> id' <> id ->
  lookup_id (updateOne db id f) id' = lookup_id db id'.
Proof.
  unfold lookup_id. intros Hf Hne.
  induction db as [|x rest IH]; simpl; [reflexivity|].
  destruct (Nat.eqb (_id x) id) eqn:E; simpl.
  - rewrite Hf. apply Nat.eqb_eq in E.
    destruct (Nat.eqb (_id x) id') eqn:E'; [|reflexivity].
    apply Nat.eqb_eq in E'. congruence.
  - now rewrite IH.
Qed.

Lemma NoDup_lookup_id db u :
  NoDup (map _id db) -> In u db -> lookup_id db (_id u) = Some u.
Proof.
  unfold lookup_id. induction db as [|x rest IH]; simpl; [tauto|].
  intros Hnd [->|Hin].
  - now rewrite Nat.eqb_refl.
  - inversion Hnd as [|? ? Hnotin Hnd']; subst.
    destruct (Nat.eqb (_id x) (_id u)) eqn:E; [|auto].
    apply Nat.eqb_eq in E. exfalso. apply Hnotin. rewrite E.
    now apply in_map.
Qed.

Lemma updateOne_lookup_email db e f u :
  NoDup (map _id db) -> keeps_id f -> keeps_email f ->
  lookup_email db e = Some u ->
  lookup_email (updateOne db (_id u) f) e = Some (f u).
Proof.
  unfold lookup_email. intros Hnd Hid Hem.
  induction db as [|x rest IH]; simpl; [discriminate|].
  inversion Hnd as [|? ? Hnotin Hnd']; subst.
  destruct (String.eqb (email x) e) eqn:E.
  - intros H. inversion H; subst. rewrite Nat.eqb_refl. simpl.
    now rewrite Hem, E.
  - intros H. pose proof (find_some _ _ H) as [Hin _].
    destruct (Nat.eqb (_id x) (_id u)) eqn:E'.
    + apply Nat.eqb_eq in E'. exfalso. apply Hnotin. rewrite E'.
      now apply in_map.
    + simpl. rewrite E. now apply IH.
Qed.

Lemma lookup_email_app_new db e u :
  lookup_email db e = None -> email u = e ->
  lookup_email (db ++ [u]) e = Some u.
Proof.
  unfold lookup_email. intros Hnone He.
  induction db as [|x rest IH]; simpl in *.
  - subst. now rewrite String.eqb_refl.
  - destruct (String.eqb (email x) e); [discriminate|]. now apply IH.
Qed.

(** ** The five-entry cap *)

Lemma slice_last_length {A} n (l : list A) :
  List.length (slice_last n l) = Nat.min n (List.length l).
Proof. unfold slice_last. rewrite length_skipn. lia. Qed.

Lemma slice_last_short {A} n (l : list A) :
  (List.length l <= n)%nat -> slice_last n l = l.
Proof.
  unfold slice_last. intros H.
  replace (List.length l - n)%nat with 0%nat by lia. reflexivity.
Qed.

Lemma slice_last_suffix {A} n (l : list A) :
  firstn (List.length l - n) l ++ slice_last n l = l.
Proof. unfold slice_last. apply firstn_skipn. Qed.


Lemma generateRefreshToken_token env now d :
  fst (generateRefreshToken env now d)
  = issued_refresh_token env now (_id (this d)).
Proof. unfold generateRefreshToken. now destruct (_ <? _)%nat. Qed.

Lemma generateRefreshToken_list env now d :
  refreshTokens (this (snd (generateRefreshToken env now d)))
  = slice_last 5
      (refreshTokens (this d)
       ++ [{| token := issued_refresh_token env now (_id (this d));
              createdAt := now |}]).
Proof.
  unfold generateRefreshToken. simpl.
  destruct (5 <? _)%nat eqn:E; simpl.
  - reflexivity.
  - apply Nat.ltb_ge in E. symmetry. apply slice_last_short. exact E.
Qed.

Lemma generateRefreshToken_this env now d :
  this (snd (generateRefreshToken env now d))
  = set_refreshTokens
      (slice_last 5
         (refreshTokens (this d)
          ++ [{| token := issued_refresh_token env now (_id (this d));
                 createdAt := now |}]))
      (this d).
Proof.
  unfold generateRefreshToken. simpl.
  destruct (5 <? _)%nat eqn:E; simpl.
  - reflexivity.
  - apply Nat.ltb_ge in E. rewrite slice_last_short by exact E. reflexivity.
Qed.

(** ** Saving documents *)

Lemma updateOne_ext db id f g :
  (forall s, f s = g s) -> updateOne db id f = updateOne db id g.
Proof.
  intros H. induction db as [|x rest IH]; simpl; [reflexivity|].
  destruct (Nat.eqb (_id x) id); [now rewrite H | now rewrite IH].
Qed.

Lemma save_existing env salt db d :
  isNew d = false -> isModified d p_password = false ->
  save env salt db d
  = (updateOne db (_id (this d))
       (fun stored => fold_right (write_path (this d)) stored (modifiedPaths d)),
     hydrate (this d)).
Proof.
  intros Hn Hm. unfold save, pre_save. rewrite Hm. cbn [negb]. now rewrite Hn.
Qed.

Lemma generateRefreshToken_pair env now d :
  generateRefreshToken env now d
  = (issued_refresh_token env now (_id (this d)),
     snd (generateRefreshToken env now d)).
Proof.
  rewrite <- generateRefreshToken_token.
  now destruct (generateRefreshToken env now d).
Qed.

Lemma write_refreshTokens_only src mods s :
  Forall (eq p_refreshTokens) mods ->
  fold_right (write_path src) s (p_refreshTokens :: mods)
  = set_refreshTokens (refreshTokens src) s.
Proof.
  induction 1 as [|p mods Hp _ IH].
  - reflexivity.
  - subst p. cbn [fold_right] in *. rewrite IH. reflexivity.
Qed.

Lemma refreshTokens_only_unmodified_password mods :
  Forall (eq p_refreshTokens) mods ->
  existsb (fun q => if Path_eq_dec p_password q then true else false) mods
  = false.
Proof.
  induction 1 as [|p mods Hp _ IH]; [reflexivity|].
  subst p. cbn [existsb]. rewrite IH. reflexivity.
Qed.

Lemma save_generateRefreshToken env now salt db d :
  isNew d = false -> Forall (eq p_refreshTokens) (modifiedPaths d) ->
  save env salt db (snd (generateRefreshToken env now d))
  = (updateOne db (_id (this d))
       (set_refreshTokens (rotated env now (_id (this d))
                                   (refreshTokens (this d)))),
     hydrate (set_refreshTokens
                (rotated env now (_id (this d)) (refreshTokens (this d)))
                (this d))).
Proof.
  intros Hn Hm.
  assert (Hmods : exists mods,
             modifiedPaths (snd (generateRefreshToken env now d))
             = p_refreshTokens :: mods /\ Forall (eq p_refreshTokens) mods).
  { unfold generateRefreshToken. cbn [snd].
    destruct (5 <? _)%nat; cbn [assign modifiedPaths]; eauto. }
  destruct Hmods as (mods & Emods & Fmods).
  rewrite save_existing.
  - rewrite generateRefreshToken_this. f_equal.
    apply updateOne_ext. intros s. rewrite Emods.
    now rewrite write_refreshTokens_only.
  - unfold generateRefreshToken. cbn [snd].
    destruct (5 <? _)%nat; cbn [assign isNew]; exact Hn.
  - unfold isModified. rewrite Emods.
    apply (refreshTokens_only_unmodified_password (p_refreshTokens :: mods)).
    now constructor.
Qed.

(** ** What [login] does, branch by branch *)

Lemma login_unknown_email env now salt db e pw :
  lookup_email db e = None ->
  login env now salt db e pw = (db, invalid_credentials).
Proof.
  intros H. unfold login, findOne_select_password. now rewrite H.
Qed.

Lemma login_locked env now salt db e pw u :
  lookup_email db e = Some u -> isLocked now u = true ->
  login env now salt db e pw = (db, locked_response).
Proof.
  intros H HL. unfold login, findOne_select_password. rewrite H.
  loaded_with_password u. now rewrite HL.
Qed.

Lemma login_deactivated env now salt db e pw u :
  lookup_email db e = Some u -> isLocked now u = false ->
  isActive u = false ->
  login env now salt db e pw = (db, deactivated_response).
Proof.
  intros H HL HA. unfold login, findOne_select_password. rewrite H.
  loaded_with_password u. now rewrite HL, HA.
Qed.

Lemma login_wrong_password env now salt db e pw u :
  lookup_email db e = Some u -> isLocked now u = false ->
  isActive u = true -> comparePassword u pw = false ->
  login env now salt db e pw
  = (incLoginAttempts now db u, invalid_credentials).
Proof.
  intros H HL HA HP. unfold login, findOne_select_password. rewrite H.
  loaded_with_password u. rewrite HL, HA, HP. reflexivity.
Qed.

Lemma login_success env now salt db e pw u :
  lookup_email db e = Some u -> isLocked now u = false ->
  isActive u = true -> comparePassword u pw = true ->
  login env now salt db e pw
  = (login_success_db env now db u, login_success_response env now u).
Proof.
  intros H HL HA HP. unfold login, findOne_select_password. rewrite H.
  loaded_with_password u. rewrite HL, HA, HP. cbn [negb]. cbv zeta.
  rewrite save_existing by reflexivity.
  cbv beta iota.
  rewrite generateRefreshToken_pair. cbv beta iota.
  cbn [this assign hydrate].
  rewrite save_generateRefreshToken by (try reflexivity; constructor).
  cbv beta iota. reflexivity.
Qed.

(** ** [incLoginAttempts] on the stored document *)

Lemma incLoginAttempts_updateOne now db u :
  exists f, keeps_id f /\ keeps_email f /\
            (forall s, refreshTokens (f s) = refreshTokens s) /\
            f u = after_failed_attempt now u /\
            incLoginAttempts now db u = updateOne db (_id u) f.
Proof.
  unfold incLoginAttempts, after_failed_attempt.
  destruct (lockExpired now u).
  - exists (fun s => set_lockUntil None (set_loginAttempts 1 s)).
    repeat split.
  - destruct ((maxAttempts <=? loginAttempts u + 1) && negb (isLocked now u)).
    + exists (fun s => set_lockUntil (Some (now + lockTime))
                         (set_loginAttempts (loginAttempts s + 1) s)).
      repeat split.
    + exists (fun s => set_loginAttempts (loginAttempts s + 1) s).
      repeat split.
Qed.

(** ** A failed password check, on the stored document *)

Lemma expired_lock_is_not_locked now u :
  lockExpired now u = true -> isLocked now u = false.
Proof.
  unfold lockExpired, isLocked. destruct (lockUntil u); [|discriminate].
  intros H. apply Z.ltb_lt in H. apply Z.ltb_ge. lia.
Qed.

Lemma failed_step env now salt db e pw u :
  NoDup (map _id db) -> lookup_email db e = Some u ->
  isLocked now u = false -> isActive u = true ->
  comparePassword u pw = false ->
  login env now salt db e pw
  = (fst (login env now salt db e pw), invalid_credentials)
  /\ NoDup (map _id (fst (login env now salt db e pw)))
  /\ lookup_email (fst (login env now salt db e pw)) e
     = Some (after_failed_attempt now u)
  /\ lookup_id (fst (login env now salt db e pw)) (_id u)
     = Some (after_failed_attempt now u).
Proof.
  intros Hnd Hu HL HA HP.
  rewrite (login_wrong_password env now salt db e pw u Hu HL HA HP).
  cbn [fst].
  destruct (incLoginAttempts_updateOne now db u)
    as (f & Hid & Hem & _ & Hf & ->).
  pose proof (lookup_email_In _ _ _ Hu) as [Hin _].
  repeat split.
  - now rewrite updateOne_ids.
  - rewrite <- Hf. now apply updateOne_lookup_email.
  - rewrite <- Hf. apply updateOne_lookup_same; [exact Hid|].
    now apply NoDup_lookup_id.
Qed.

Lemma updateOne_lookup_cases db id f id' s s' :
  keeps_id f -> lookup_id db id' = Some s ->
  lookup_id (updateOne db id f) id' = Some s' ->
  (id' = id /\ s' = f s) \/ (id' <> id /\ s' = s).
Proof.
  intros Hf Hs Hs'. destruct (Nat.eq_dec id' id) as [->|Hne].
  - left. rewrite (updateOne_lookup_same _ _ _ _ Hf Hs) in Hs'.
    split; congruence.
  - right. rewrite (updateOne_lookup_other _ _ _ _ Hf Hne) in Hs'.
    split; congruence.
Qed.

Lemma login_success_db_attempts env now db e u id s s' :
  NoDup (map _id db) -> lookup_email db e = Some u ->
  lookup_id db id = Some s ->
  lookup_id (login_success_db env now db u) id = Some s' ->
  loginAttempts s' <= loginAttempts s.
Proof.
  intros Hnd Hu Hs Hs'. unfold login_success_db in Hs'.
  pose proof (lookup_email_In _ _ _ Hu) as [Hin _].
  pose proof (NoDup_lookup_id _ _ Hnd Hin) as Hstored.
  set (reset := fun x => set_lockUntil None (set_loginAttempts 0 x)) in Hs'.
  assert (Hreset : keeps_id reset) by (intros x; reflexivity).
  assert (Hlast : keeps_id (set_lastLogin now)) by (intros x; reflexivity).
  assert (Hrot : keeps_id
                   (set_refreshTokens
                      (rotated env now (_id u) (refreshTokens u))))
    by (intros x; reflexivity).
  destruct (Nat.eq_dec id (_id u)) as [->|Hne].
  - assert (s = u) by congruence. subst s.
    destruct (0 <? loginAttempts u) eqn:E.
    + rewrite (updateOne_lookup_same _ _ _ (set_lastLogin now (reset u)))
        in Hs'; [|exact Hrot|].
      * inversion Hs'; subst s'. apply Z.ltb_lt in E. cbn. lia.
      * apply updateOne_lookup_same; [exact Hlast|].
        now apply updateOne_lookup_same.
    + rewrite (updateOne_lookup_same _ _ _ (set_lastLogin now u))
        in Hs'; [|exact Hrot|].
      * inversion Hs'; subst s'. cbn. lia.
      * now apply updateOne_lookup_same.
  - rewrite updateOne_lookup_other in Hs' by assumption.
    rewrite updateOne_lookup_other in Hs' by assumption.
    destruct (0 <? loginAttempts u).
    + rewrite updateOne_lookup_other in Hs' by assumption.
      assert (s' = s) by congruence. subst. lia.
    + assert (s' = s) by congruence. subst. lia.
Qed.

(** ** Lockout guard *)

(** C2.  For an account found by its email in a collection with unique ids:
    a failed password check on an account that is neither locked nor past an
    old lock adds one to [loginAttempts], and sets [lockUntil] two hours
    ahead exactly when the count reaches five; five failures in a row on a
    fresh account leave it with five attempts and locked for two hours from
    the fifth, and any attempt inside that window, whatever the password, is
    answered 423; while [lockUntil] is in the future every attempt is
    answered 423 with the collection untouched; the first failure after the
    lock has passed sets [loginAttempts] to 1 and clears the lock. *)
Theorem lockout_guard env salt db e u :
  NoDup (map _id db) -> lookup_email db e = Some u ->
  (forall now pw,
      isLocked now u = false -> lockExpired now u = false ->
      isActive u = true -> comparePassword u pw = false ->
      exists u',
        snd (login env now salt db e pw) = invalid_credentials
        /\ lookup_email (fst (login env now salt db e pw)) e = Some u'
        /\ loginAttempts u' = loginAttempts u + 1
        /\ lockUntil u'
           = if 5 <=? loginAttempts u + 1
             then Some (now + 2 * 60 * 60 * 1000) else lockUntil u)
  /\ (forall pw t1 t2 t3 t4 t5,
         loginAttempts u = 0 -> lockUntil u = None ->
         isActive u = true -> comparePassword u pw = false ->
         let db5 := logins env salt db e pw [t1; t2; t3; t4; t5] in
         exists u5,
           lookup_email db5 e = Some u5
           /\ loginAttempts u5 = 5
           /\ lockUntil u5 = Some (t5 + 2 * 60 * 60 * 1000)
           /\ forall t6 pw6,
               t6 < t5 + 2 * 60 * 60 * 1000 ->
               login env t6 salt db5 e pw6 = (db5, locked_response))
  /\ (forall now pw,
         isLocked now u = true ->
         login env now salt db e pw = (db, locked_response))
  /\ (forall now pw,
         lockExpired now u = true ->
         isActive u = true -> comparePassword u pw = false ->
         exists u',
           snd (login env now salt db e pw) = invalid_credentials
           /\ lookup_email (fst (login env now salt db e pw)) e = Some u'
           /\ loginAttempts u' = 1 /\ lockUntil u' = None).
Proof.
  intros Hnd Hu. repeat apply conj.
  - intros now pw HL HE HA HP.
    destruct (failed_step env now salt db e pw u Hnd Hu HL HA HP)
      as (Hr & _ & Hem & _).
    exists (after_failed_attempt now u). rewrite Hr at 1. cbn [snd].
    repeat split; [exact Hem| |];
      unfold after_failed_attempt; rewrite HE, HL; cbn [negb];
      rewrite andb_true_r; unfold maxAttempts, lockTime;
      destruct (5 <=? loginAttempts u + 1); reflexivity.
  - intros pw t1 t2 t3 t4 t5 Hla Hlu HA HP db5.
    destruct u as [id n em p r act ver evt prt pre la lu ll rts].
    cbn in Hla, Hlu, HA. subst la lu act.
    set (u0 := {| _id := id; name := n; email := em; password := p;
                  role := r; isActive := true; isEmailVerified := ver;
                  emailVerificationToken := evt; passwordResetToken := prt;
                  passwordResetExpires := pre; loginAttempts := 0;
                  lockUntil := None; lastLogin := ll;
                  refreshTokens := rts |}) in *.
    destruct (failed_step env t1 salt db e pw u0 Hnd Hu eq_refl eq_refl HP)
      as (_ & Hnd1 & Hu1 & _).
    destruct (failed_step env t2 salt _ e pw _ Hnd1 Hu1 eq_refl eq_refl HP)
      as (_ & Hnd2 & Hu2 & _).
    destruct (failed_step env t3 salt _ e pw _ Hnd2 Hu2 eq_refl eq_refl HP)
      as (_ & Hnd3 & Hu3 & _).
    destruct (failed_step env t4 salt _ e pw _ Hnd3 Hu3 eq_refl eq_refl HP)
      as (_ & Hnd4 & Hu4 & _).
    destruct (failed_step env t5 salt _ e pw _ Hnd4 Hu4 eq_refl eq_refl HP)
      as (_ & Hnd5 & Hu5 & _).
    eexists. split; [exact Hu5|]. repeat split.
    intros t6 pw6 Ht6. apply (login_locked _ _ _ _ _ _ _ Hu5).
    apply Z.ltb_lt. exact Ht6.
  - intros now pw HL. now apply (login_locked _ _ _ _ _ _ u).
  - intros now pw HE HA HP.
    pose proof (expired_lock_is_not_locked _ _ HE) as HL.
    destruct (failed_step env now salt db e pw u Hnd Hu HL HA HP)
      as (Hr & _ & Hem & _).
    exists (after_failed_attempt now u). rewrite Hr at 1. cbn [snd].
    repeat split; [exact Hem| |];
      unfold after_failed_attempt; rewrite HE; reflexivity.
Qed.

Lemma lockout_guard_witness :
  NoDup (map _id [alice])
  /\ lookup_email [alice] "alice@example.com" = Some alice
  /\ (let db5 := logins env0 0%N [alice] "alice@example.com" "wrong"
                        [1000; 2000; 3000; 4000; 5000] in
      exists u5,
        lookup_email db5 "alice@example.com" = Some u5
        /\ loginAttempts u5 = 5
        /\ lockUntil u5 = Some (5000 + 2 * 60 * 60 * 1000)
        /\ forall t6 pw6,
            t6 < 5000 + 2 * 60 * 60 * 1000 ->
            login env0 t6 0%N db5 "alice@example.com" pw6
            = (db5, locked_response)).
Proof.
  assert (Hnd : NoDup (map _id [alice])).
  { repeat constructor. intros []. }
  split; [exact Hnd | split; [reflexivity|]].
  destruct (lockout_guard env0 0%N [alice] "alice@example.com" alice
                          Hnd eq_refl) as (_ & Hfive & _).
  exact (Hfive "wrong" 1000 2000 3000 4000 5000
               eq_refl eq_refl eq_refl eq_refl).
Defined.

(** ** Uniform login failures *)

(** C7.  The response to a login for an email no account has and the
    response to a login whose password check fails are the same response:
    status 401, message 'Invalid email or password', no data. *)
Theorem login_failure_uniform env now1 now2 salt1 salt2 db1 db2 e1 e2 pw1 pw2 u :
  lookup_email db1 e1 = None ->
  lookup_email db2 e2 = Some u ->
  isLocked now2 u = false -> isActive u = true ->
  comparePassword u pw2 = false ->
  snd (login env now1 salt1 db1 e1 pw1) = snd (login env now2 salt2 db2 e2 pw2)
  /\ snd (login env now1 salt1 db1 e1 pw1)
     = {| status := 401; body_status := "fail";
          message := "Invalid email or password"; data := NoData |}.
Proof.
  intros Hnone Hu HL HA HP.
  rewrite (login_unknown_email env now1 salt1 db1 e1 pw1 Hnone).
  rewrite (login_wrong_password env now2 salt2 db2 e2 pw2 u Hu HL HA HP).
  split; reflexivity.
Qed.

Lemma login_failure_uniform_witness :
  snd (login env0 2000 0%N [alice] "bob@example.com" "Password1!")
  = snd (login env0 2000 0%N [alice] "alice@example.com" "wrong").
Proof.
  apply (login_failure_uniform env0 2000 2000 0%N 0%N [alice] [alice]
           "bob@example.com" "alice@example.com" "Password1!" "wrong" alice);
    reflexivity.
Defined.

(** ** The frame of [login] *)

(** C10.  A login for an unknown email, for a locked account or for a
    deactivated account returns its failure response and leaves the
    collection as it was; and, ids being unique, whenever a stored document's
    [loginAttempts] is larger after a login than before, that login reached
    the password comparison and failed it. *)
Theorem login_frame env now salt db e pw :
  NoDup (map _id db) ->
  (lookup_email db e = None ->
   login env now salt db e pw = (db, invalid_credentials))
  /\ (forall u, lookup_email db e = Some u -> isLocked now u = true ->
                login env now salt db e pw = (db, locked_response))
  /\ (forall u, lookup_email db e = Some u -> isLocked now u = false ->
                isActive u = false ->
                login env now salt db e pw = (db, deactivated_response))
  /\ (forall id s s',
         lookup_id db id = Some s ->
         lookup_id (fst (login env now salt db e pw)) id = Some s' ->
         loginAttempts s < loginAttempts s' ->
         exists u, lookup_email db e = Some u /\ isLocked now u = false
                   /\ isActive u = true /\ comparePassword u pw = false).
Proof.
  intros Hnd. repeat apply conj.
  - apply login_unknown_email.
  - intros u. apply login_locked.
  - intros u. apply login_deactivated.
  - intros id s s' Hs Hs' Hlt.
    destruct (lookup_email db e) as [u|] eqn:Hu.
    + destruct (isLocked now u) eqn:HL.
      * rewrite (login_locked env now salt db e pw u Hu HL) in Hs'.
        cbn [fst] in Hs'. assert (s' = s) by congruence. subst. lia.
      * destruct (isActive u) eqn:HA.
        -- destruct (comparePassword u pw) eqn:HP.
           ++ rewrite (login_success env now salt db e pw u Hu HL HA HP)
                in Hs'.
              cbn [fst] in Hs'.
              pose proof (login_success_db_attempts
                            env now db e u id s s' Hnd Hu Hs Hs').
              lia.
           ++ exists u. auto.
        -- rewrite (login_deactivated env now salt db e pw u Hu HL HA) in Hs'.
           cbn [fst] in Hs'. assert (s' = s) by congruence. subst. lia.
    + rewrite (login_unknown_email env now salt db e pw Hu) in Hs'.
      cbn [fst] in Hs'. assert (s' = s) by congruence. subst. lia.
Qed.

Lemma login_frame_witness :
  NoDup (map _id [alice_locked]) /\ NoDup (map _id [alice_deactivated])
  /\ login env0 2000 0%N [alice_locked] "alice@example.com" "wrong"
     = ([alice_locked], locked_response)
  /\ login env0 2000 0%N [alice_deactivated] "alice@example.com" "wrong"
     = ([alice_deactivated], deactivated_response).
Proof.
  assert (Hl : NoDup (map _id [alice_locked])).
  { repeat constructor. intros []. }
  assert (Hd : NoDup (map _id [alice_deactivated])).
  { repeat constructor. intros []. }
  split; [exact Hl | split; [exact Hd | split]].
  - destruct (login_frame env0 2000 0%N [alice_locked] "alice@example.com"
                          "wrong" Hl) as (_ & H & _).
    exact (H alice_locked eq_refl eq_refl).
  - destruct (login_frame env0 2000 0%N [alice_deactivated]
                          "alice@example.com" "wrong" Hd) as (_ & _ & H & _).
    exact (H alice_deactivated eq_refl eq_refl eq_refl).
Defined.

(** ** What [refresh] does, branch by branch *)

Lemma verified_is_signed t secret now p :
  jwt.verify t secret now = Decoded p -> falsy (Some t) = false.
Proof. destruct t; [reflexivity | discriminate]. Qed.

Lemma refresh_missing env now salt db t :
  falsy t = true ->
  refresh env now salt db t = (db, fail 401 "Refresh token is required").
Proof.
  intros H. unfold refresh. destruct t as [t|]; [|reflexivity].
  now rewrite H.
Qed.

Lemma refresh_rejected env now salt db t e :
  falsy (Some t) = false ->
  verifyRefreshToken env now t = Rejected e ->
  refresh env now salt db (Some t)
  = (db, fail 401 "Invalid or expired refresh token").
Proof. intros Hf Hv. unfold refresh. now rewrite Hf, Hv. Qed.

Lemma refresh_no_user env now salt db t p :
  verifyRefreshToken env now t = Decoded p ->
  lookup_id db (jwt_id p) = None ->
  refresh env now salt db (Some t) = (db, fail 401 "User not found").
Proof.
  intros Hv Hu. unfold refresh.
  rewrite (verified_is_signed _ _ _ _ Hv), Hv. unfold findById.
  now rewrite Hu.
Qed.

Lemma refresh_deactivated env now salt db t p u :
  verifyRefreshToken env now t = Decoded p ->
  lookup_id db (jwt_id p) = Some u -> isActive u = false ->
  refresh env now salt db (Some t) = (db, deactivated_response).
Proof.
  intros Hv Hu HA. unfold refresh.
  rewrite (verified_is_signed _ _ _ _ Hv), Hv. unfold findById.
  rewrite Hu. loaded u. now rewrite HA.
Qed.

Lemma refresh_unknown_token env now salt db t p u :
  verifyRefreshToken env now t = Decoded p ->
  lookup_id db (jwt_id p) = Some u -> isActive u = true ->
  tokenExists u t = false ->
  refresh env now salt db (Some t) = (db, fail 401 "Invalid refresh token").
Proof.
  intros Hv Hu HA HT. unfold refresh.
  rewrite (verified_is_signed _ _ _ _ Hv), Hv. unfold findById.
  rewrite Hu. loaded u. now rewrite HA, HT.
Qed.

Lemma refresh_success env now salt db t p u :
  verifyRefreshToken env now t = Decoded p ->
  lookup_id db (jwt_id p) = Some u -> isActive u = true ->
  tokenExists u t = true ->
  refresh env now salt db (Some t)
  = (refresh_success_db env now db u, refresh_success_response env now u).
Proof.
  intros Hv Hu HA HT. unfold refresh.
  rewrite (verified_is_signed _ _ _ _ Hv), Hv. unfold findById.
  rewrite Hu. loaded u. rewrite HA, HT. cbn [negb]. cbv zeta.
  rewrite generateRefreshToken_pair. cbv beta iota.
  rewrite save_generateRefreshToken
    by (try reflexivity; repeat constructor).
  cbv beta iota. reflexivity.
Qed.

(** ** What [register] does *)

Lemma max_id_bound db x :
  In x db -> (_id x <= fold_right Nat.max O (map _id db))%nat.
Proof.
  induction db as [|y rest IH]; cbn [In map fold_right]; [tauto|].
  intros [->|Hin]; [lia|]. specialize (IH Hin). lia.
Qed.

Lemma newObjectId_fresh db x : In x db -> _id x <> newObjectId db.
Proof.
  intros Hin. pose proof (max_id_bound db x Hin). unfold newObjectId. lia.
Qed.

Lemma updateOne_app_fresh db u f :
  (forall x, In x db -> _id x <> _id u) ->
  updateOne (db ++ [u]) (_id u) f = db ++ [f u].
Proof.
  induction db as [|y rest IH]; intros Hfresh; cbn [app updateOne].
  - now rewrite Nat.eqb_refl.
  - destruct (Nat.eqb (_id y) (_id u)) eqn:E.
    + apply Nat.eqb_eq in E. exfalso. apply (Hfresh y); [now left|exact E].
    + rewrite IH; [reflexivity|]. intros x Hx. apply Hfresh. now right.
Qed.

Lemma register_duplicate env svc now salt db n e pw u :
  lookup_email db e = Some u ->
  register env svc now salt db n e pw
  = (db, fail 400 "User with this email already exists").
Proof. intros H. unfold register, findOne. now rewrite H. Qed.

Lemma register_success env svc now salt db n e pw :
  lookup_email db e = None ->
  register env svc now salt db n e pw
  = (db ++ [registered env now salt db n e pw],
     register_success_response env now db n e).
Proof.
  intros H. unfold register, findOne. rewrite H. cbn [option_map]. cbv zeta.
  change (save env salt db (new_User db now n e pw))
    with (db ++ [set_refreshTokens [] (registered env now salt db n e pw)],
          hydrate (set_refreshTokens [] (registered env now salt db n e pw))).
  cbv beta iota.
  rewrite generateRefreshToken_pair. cbv beta iota.
  rewrite save_generateRefreshToken by (try reflexivity; constructor).
  cbn [this hydrate].
  rewrite updateOne_app_fresh.
  - reflexivity.
  - intros x Hx. apply newObjectId_fresh. exact Hx.
Qed.

Lemma refresh_cases env now salt db t :
  (exists r, refresh env now salt db t = (db, r) /\ status r = 401)
  \/ (exists tok p u,
         t = Some tok
         /\ verifyRefreshToken env now tok = Decoded p
         /\ lookup_id db (jwt_id p) = Some u
         /\ isActive u = true /\ tokenExists u tok = true
         /\ refresh env now salt db t
            = (refresh_success_db env now db u,
               refresh_success_response env now u)).
Proof.
  destruct (falsy t) eqn:Hf.
  { left. rewrite (refresh_missing _ _ _ _ _ Hf). eauto. }
  destruct t as [tok|]; [|discriminate].
  destruct (verifyRefreshToken env now tok) as [p|err] eqn:Hv.
  2:{ left. rewrite (refresh_rejected _ _ _ _ _ _ Hf Hv). eauto. }
  destruct (lookup_id db (jwt_id p)) as [u|] eqn:Hu.
  2:{ left. rewrite (refresh_no_user _ _ _ _ _ _ Hv Hu). eauto. }
  destruct (isActive u) eqn:HA.
  2:{ left. rewrite (refresh_deactivated _ _ _ _ _ _ _ Hv Hu HA). eauto. }
  destruct (tokenExists u tok) eqn:HT.
  2:{ left. rewrite (refresh_unknown_token _ _ _ _ _ _ _ Hv Hu HA HT). eauto. }
  right. exists tok, p, u. repeat split; try assumption.
  now apply (refresh_success env now salt db tok p u).
Qed.

(** ** Refresh failures *)

(** C3.  A refresh request without a token is answered 401.  A request
    presenting [t] is answered 401 exactly when [t] fails verification under
    the refresh secret (bad signature or expired), or the user it names does
    not exist, or that user is deactivated, or [t] is not in that user's
    stored list; every 401 leaves the collection untouched, and every other
    answer is 200.  In particular a token that no stored list contains is
    answered 401. *)
Theorem refresh_fails_iff env now salt db t :
  status (snd (refresh env now salt db None)) = 401
  /\ (status (snd (refresh env now salt db (Some t))) = 401 <->
      (forall p, verifyRefreshToken env now t <> Decoded p)
      \/ (exists p, verifyRefreshToken env now t = Decoded p
                    /\ lookup_id db (jwt_id p) = None)
      \/ (exists p u, verifyRefreshToken env now t = Decoded p
                      /\ lookup_id db (jwt_id p) = Some u
                      /\ isActive u = false)
      \/ (exists p u, verifyRefreshToken env now t = Decoded p
                      /\ lookup_id db (jwt_id p) = Some u
                      /\ tokenExists u t = false))
  /\ (status (snd (refresh env now salt db (Some t))) = 401 ->
      fst (refresh env now salt db (Some t)) = db)
  /\ (status (snd (refresh env now salt db (Some t))) <> 401 ->
      status (snd (refresh env now salt db (Some t))) = 200)
  /\ ((forall u, In u db -> tokenExists u t = false) ->
      status (snd (refresh env now salt db (Some t))) = 401).
Proof.
  assert (Hdisj :
    (forall p, verifyRefreshToken env now t <> Decoded p)
    \/ (exists p, verifyRefreshToken env now t = Decoded p
                  /\ lookup_id db (jwt_id p) = None)
    \/ (exists p u, verifyRefreshToken env now t = Decoded p
                    /\ lookup_id db (jwt_id p) = Some u
                    /\ isActive u = false)
    \/ (exists p u, verifyRefreshToken env now t = Decoded p
                    /\ lookup_id db (jwt_id p) = Some u
                    /\ tokenExists u t = false)
    -> status (snd (refresh env now salt db (Some t))) = 401).
  { intros [Hv | [(p & Hv & Hu) | [(p & u & Hv & Hu & HA)
                                  | (p & u & Hv & Hu & HT)]]].
    - destruct (falsy (Some t)) eqn:Hf.
      + now rewrite (refresh_missing _ _ _ _ _ Hf).
      + destruct (verifyRefreshToken env now t) as [p|err] eqn:E.
        * now destruct (Hv p).
        * now rewrite (refresh_rejected _ _ _ _ _ _ Hf E).
    - now rewrite (refresh_no_user _ _ _ _ _ _ Hv Hu).
    - now rewrite (refresh_deactivated _ _ _ _ _ _ _ Hv Hu HA).
    - destruct (isActive u) eqn:HA.
      + now rewrite (refresh_unknown_token _ _ _ _ _ _ _ Hv Hu HA HT).
      + now rewrite (refresh_deactivated _ _ _ _ _ _ _ Hv Hu HA). }
  repeat apply conj.
  - reflexivity.
  - intros H401.
    destruct (refresh_cases env now salt db (Some t))
      as [(r & Hr & _) | (tok & p & u & Ht & Hv & Hu & HA & HT & Hr)].
    + destruct (verifyRefreshToken env now t) as [p|err] eqn:Hv.
      2:{ left. intros p. discriminate. }
      destruct (lookup_id db (jwt_id p)) as [u|] eqn:Hu.
      2:{ right. left. eauto. }
      destruct (isActive u) eqn:HA.
      2:{ right. right. left. eauto. }
      destruct (tokenExists u t) eqn:HT.
      2:{ right. right. right. eauto. }
      rewrite (refresh_success _ _ _ _ _ _ _ Hv Hu HA HT) in H401.
      discriminate H401.
    + rewrite Hr in H401. discriminate H401.
  - exact Hdisj.
  - intros H401.
    destruct (refresh_cases env now salt db (Some t))
      as [(r & Hr & _) | (tok & p & u & Ht & Hv & Hu & HA & HT & Hr)].
    + now rewrite Hr.
    + rewrite Hr in H401. discriminate H401.
  - intros Hne.
    destruct (refresh_cases env now salt db (Some t))
      as [(r & Hr & Hs) | (tok & p & u & Ht & Hv & Hu & HA & HT & Hr)].
    + rewrite Hr in Hne. cbn [snd] in Hne. contradiction.
    + now rewrite Hr.
  - intros Habsent. apply Hdisj.
    destruct (verifyRefreshToken env now t) as [p|err] eqn:Hv.
    2:{ left. intros p. discriminate. }
    destruct (lookup_id db (jwt_id p)) as [u|] eqn:Hu.
    2:{ right. left. eauto. }
    right. right. right. exists p, u. repeat split; try assumption.
    apply Habsent. now apply (lookup_id_In db (jwt_id p)).
Qed.

(** After a logout that names no token the list is empty, and every refresh
    token naming that user is answered 401. *)
Lemma logout_all_revokes env salt db u now salt' t p :
  lookup_id db (_id u) = Some u ->
  verifyRefreshToken env now t = Decoded p -> jwt_id p = _id u ->
  status (snd (refresh env now salt'
                 (fst (logout env salt db (hydrate (deselect u)) None))
                 (Some t))) = 401.
Proof.
  intros Hu Hv Hid.
  change (fst (logout env salt db (hydrate (deselect u)) None))
    with (updateOne db (_id u) (set_refreshTokens [])).
  assert (Hu' : lookup_id (updateOne db (_id u) (set_refreshTokens []))
                          (jwt_id p) = Some (set_refreshTokens [] u)).
  { rewrite Hid. apply updateOne_lookup_same; [intros s; reflexivity|exact Hu]. }
  destruct (isActive u) eqn:HA.
  - now rewrite (refresh_unknown_token _ _ _ _ _ _ _ Hv Hu' HA eq_refl).
  - now rewrite (refresh_deactivated _ _ _ _ _ _ _ Hv Hu' HA).
Qed.

(** ** Rotation on refresh *)

Lemma tokenExists_In u t :
  tokenExists u t = true <->
  exists r, In r (refreshTokens u) /\ token r = t.
Proof.
  unfold tokenExists, Token_eqb. rewrite existsb_exists.
  split; intros (r & Hin & Hr); exists r; split; try assumption.
  - now destruct (Token_eq_dec (token r) t).
  - destruct (Token_eq_dec (token r) t); [reflexivity|contradiction].
Qed.

Lemma slice_last_In {A} n (l : list A) x : In x (slice_last n l) -> In x l.
Proof.
  intros H. rewrite <- (slice_last_suffix n l). apply in_or_app. now right.
Qed.

Lemma rotated_length env now id l :
  (List.length (rotated env now id l) <= 5)%nat.
Proof. unfold rotated. rewrite slice_last_length. lia. Qed.

Lemma rotated_short env now id l :
  (List.length l < 5)%nat -> rotated env now id l = l ++ [new_entry env now id].
Proof.
  intros H. unfold rotated. apply slice_last_short.
  rewrite length_app. cbn [List.length]. lia.
Qed.

Lemma refresh_success_lookup env now db u :
  lookup_id db (_id u) = Some u ->
  lookup_id (refresh_success_db env now db u) (_id u)
  = Some (set_refreshTokens (refresh_success_list env now u) u).
Proof.
  intros H. unfold refresh_success_db.
  now apply updateOne_lookup_same; [intros s|].
Qed.

(** C4, as the code has it.  On every refresh answered 200 the stored list
    becomes the last five entries of: the stored entries that still verify,
    in their order, followed by the new refresh token.  The presented token
    survives the prune, and it is still stored after the call whenever fewer
    than five entries survive the prune; an entry leaves the list only
    because it no longer verifies or because the five-entry cap evicts the
    oldest survivors. *)
Theorem refresh_rotation env now salt db t :
  status (snd (refresh env now salt db (Some t))) = 200 ->
  exists p u u',
    verifyRefreshToken env now t = Decoded p
    /\ lookup_id db (jwt_id p) = Some u
    /\ lookup_id (fst (refresh env now salt db (Some t))) (jwt_id p) = Some u'
    /\ refreshTokens u'
       = slice_last 5 (filter (verifies env now) (refreshTokens u)
                       ++ [new_entry env now (jwt_id p)])
    /\ (exists r, In r (filter (verifies env now) (refreshTokens u))
                  /\ token r = t)
    /\ ((List.length (filter (verifies env now) (refreshTokens u)) < 5)%nat ->
        tokenExists u' t = true)
    /\ (forall r, In r (refreshTokens u') ->
                  r = new_entry env now (jwt_id p)
                  \/ (In r (refreshTokens u) /\ verifies env now r = true))
    /\ (forall r, In r (refreshTokens u) -> ~ In r (refreshTokens u') ->
                  verifies env now r = false
                  \/ (5 <= List.length
                             (filter (verifies env now) (refreshTokens u)))%nat).
Proof.
  intros H200.
  destruct (refresh_cases env now salt db (Some t))
    as [(r & Hr & Hs) | (tok & p & u & Ht & Hv & Hu & HA & HT & Hr)].
  { rewrite Hr in H200. cbn [snd] in H200. rewrite Hs in H200.
    discriminate H200. }
  inversion Ht; subst tok. clear Ht.
  pose proof (lookup_id_In _ _ _ Hu) as [_ Hid]. symmetry in Hid.
  exists p, u, (set_refreshTokens (refresh_success_list env now u) u).
  rewrite Hr. cbn [fst]. rewrite Hid in *.
  assert (Hkept : exists r, In r (filter (verifies env now) (refreshTokens u))
                            /\ token r = t).
  { apply tokenExists_In in HT. destruct HT as (r & Hin & Hr0).
    exists r. split; [|exact Hr0]. apply filter_In. split; [exact Hin|].
    unfold verifies. rewrite Hr0. unfold verifyRefreshToken in Hv.
    now rewrite Hv. }
  repeat apply conj; try assumption.
  - now apply refresh_success_lookup.
  - reflexivity.
  - intros Hlen. apply tokenExists_In.
    destruct Hkept as (r & Hin & Hr0). exists r. split; [|exact Hr0].
    cbn [refreshTokens set_refreshTokens]. unfold refresh_success_list.
    rewrite rotated_short by exact Hlen. apply in_or_app. now left.
  - intros r Hin. cbn [refreshTokens set_refreshTokens] in Hin.
    apply slice_last_In in Hin. apply in_app_or in Hin.
    destruct Hin as [Hin|[<-|[]]].
    + right. now apply filter_In in Hin.
    + now left.
  - intros r Hin Hout. destruct (verifies env now r) eqn:Hver; [|now left].
    right. apply Nat.nlt_ge. intros Hlen. apply Hout.
    cbn [refreshTokens set_refreshTokens]. unfold refresh_success_list.
    rewrite rotated_short by exact Hlen. apply in_or_app. left.
    apply filter_In. now split.
Qed.

Lemma refresh_rotation_witness :
  status (snd (refresh env0 6000 0%N [alice_sessions]
                       (Some (issued_refresh_token env0 1000 1%nat)))) = 200
  /\ exists p u u',
      verifyRefreshToken env0 6000 (issued_refresh_token env0 1000 1%nat)
      = Decoded p
      /\ lookup_id [alice_sessions] (jwt_id p) = Some u
      /\ lookup_id (fst (refresh env0 6000 0%N [alice_sessions]
                           (Some (issued_refresh_token env0 1000 1%nat))))
                   (jwt_id p) = Some u'
      /\ refreshTokens u'
         = slice_last 5 (filter (verifies env0 6000) (refreshTokens u)
                         ++ [new_entry env0 6000 (jwt_id p)]).
Proof.
  split; [reflexivity|].
  destruct (refresh_rotation env0 6000 0%N [alice_sessions]
              (issued_refresh_token env0 1000 1%nat) eq_refl)
    as (p & u & u' & H1 & H2 & H3 & H4 & _).
  exists p, u, u'. repeat split; assumption.
Defined.

(** C4, as stated, fails: with five live sessions stored, refreshing with
    the oldest one is answered 200 and the cap evicts the presented token. *)
Lemma refresh_evicts_presented_token :
  ~ (forall env now salt db t p u',
        status (snd (refresh env now salt db (Some t))) = 200 ->
        verifyRefreshToken env now t = Decoded p ->
        lookup_id (fst (refresh env now salt db (Some t))) (jwt_id p)
        = Some u' ->
        tokenExists u' t = true).
Proof.
  intros H.
  specialize (H env0 6000 0%N [alice_sessions]
                (issued_refresh_token env0 1000 1%nat)
                {| jwt_id := 1%nat; jwt_email := None; jwt_role := None;
                   jwt_type := None |}
                (set_refreshTokens
                   (map (fun t => new_entry env0 t 1%nat)
                        [2000; 3000; 4000; 5000; 6000]) alice)
                eq_refl eq_refl eq_refl).
  discriminate H.
Qed.

(** ** The session cap *)

Lemma capped_updateOne db id f :
  capped db -> (forall s, capped_user s -> capped_user (f s)) ->
  capped (updateOne db id f).
Proof.
  unfold capped. intros Hdb Hf.
  induction Hdb as [|x rest Hx Hrest IH]; cbn [updateOne]; [constructor|].
  destruct (Nat.eqb (_id x) id); constructor; auto.
Qed.

Lemma capped_updateOne_same_list db id f :
  capped db -> (forall s, refreshTokens (f s) = refreshTokens s) ->
  capped (updateOne db id f).
Proof.
  intros Hdb Hf. apply capped_updateOne; [exact Hdb|].
  intros s. unfold capped_user. now rewrite Hf.
Qed.

Lemma capped_updateOne_rotated db id env now id' l :
  capped db ->
  capped (updateOne db id (set_refreshTokens (rotated env now id' l))).
Proof.
  intros Hdb. apply capped_updateOne; [exact Hdb|].
  intros s _. unfold capped_user. cbn [refreshTokens set_refreshTokens].
  apply rotated_length.
Qed.

Lemma login_capped env now salt db e pw :
  capped db -> capped (fst (login env now salt db e pw)).
Proof.
  intros Hdb.
  destruct (lookup_email db e) as [u|] eqn:Hu.
  2:{ now rewrite (login_unknown_email _ _ _ _ _ _ Hu). }
  destruct (isLocked now u) eqn:HL.
  { now rewrite (login_locked _ _ _ _ _ _ _ Hu HL). }
  destruct (isActive u) eqn:HA.
  2:{ now rewrite (login_deactivated _ _ _ _ _ _ _ Hu HL HA). }
  destruct (comparePassword u pw) eqn:HP.
  - rewrite (login_success _ _ _ _ _ _ _ Hu HL HA HP). cbn [fst].
    unfold login_success_db. apply capped_updateOne_rotated.
    apply capped_updateOne_same_list; [|reflexivity].
    destruct (0 <? loginAttempts u); [|exact Hdb].
    now apply capped_updateOne_same_list.
  - rewrite (login_wrong_password _ _ _ _ _ _ _ Hu HL HA HP). cbn [fst].
    destruct (incLoginAttempts_updateOne now db u)
      as (f & _ & _ & Hf & _ & ->).
    now apply capped_updateOne_same_list.
Qed.

Lemma refresh_capped env now salt db t :
  capped db -> capped (fst (refresh env now salt db t)).
Proof.
  intros Hdb.
  destruct (refresh_cases env now salt db t)
    as [(r & Hr & _) | (tok & p & u & _ & _ & _ & _ & _ & Hr)];
    rewrite Hr; cbn [fst]; [exact Hdb|].
  unfold refresh_success_db, refresh_success_list.
  now apply capped_updateOne_rotated.
Qed.

Lemma register_capped env svc now salt db n e pw :
  capped db -> capped (fst (register env svc now salt db n e pw)).
Proof.
  intros Hdb.
  destruct (lookup_email db e) as [u|] eqn:Hu.
  - now rewrite (register_duplicate _ _ _ _ _ _ _ _ _ Hu).
  - rewrite (register_success _ _ _ _ _ _ _ _ Hu). cbn [fst].
    apply Forall_app. split; [exact Hdb|].
    constructor; [|constructor]. unfold capped_user. cbn. lia.
Qed.

(** C6.  [generateRefreshToken] leaves at most five entries, namely the last
    five of the old list followed by the new token: what it drops is a prefix
    of that sequence, the oldest entries, and on overflow exactly five
    remain.  Hence register, login and refresh keep every stored list within
    five entries. *)
Theorem session_cap env svc now salt db :
  (forall d,
      let old := refreshTokens (this d) in
      let new := new_entry env now (_id (this d)) in
      let kept := refreshTokens (this (snd (generateRefreshToken env now d))) in
      (List.length kept <= 5)%nat
      /\ kept = slice_last 5 (old ++ [new])
      /\ (exists evicted, old ++ [new] = evicted ++ kept)
      /\ ((5 <= List.length old)%nat -> List.length kept = 5%nat))
  /\ (capped db ->
      (forall n e pw, capped (fst (register env svc now salt db n e pw)))
      /\ (forall e pw, capped (fst (login env now salt db e pw)))
      /\ (forall t, capped (fst (refresh env now salt db t)))).
Proof.
  split.
  - intros d old new kept. subst kept.
    rewrite generateRefreshToken_list. fold old. fold (new_entry env now (_id (this d))).
    fold new. repeat apply conj.
    + rewrite slice_last_length. lia.
    + reflexivity.
    + eexists. symmetry. apply slice_last_suffix.
    + intros Hlen. rewrite slice_last_length, length_app.
      cbn [List.length]. lia.
  - intros Hdb. repeat apply conj.
    + intros n e pw. now apply register_capped.
    + intros e pw. now apply login_capped.
    + intros t. now apply refresh_capped.
Qed.

Lemma session_cap_witness :
  capped [alice_sessions]
  /\ capped (fst (login env0 6000 0%N [alice_sessions]
                        "alice@example.com" "Password1!"))
  /\ capped (fst (refresh env0 6000 0%N [alice_sessions]
                          (Some (issued_refresh_token env0 1000 1%nat)))).
Proof.
  assert (H : capped [alice_sessions]).
  { constructor; [|constructor]. unfold capped_user. cbn. lia. }
  destruct (session_cap env0 svc0 6000 0%N [alice_sessions])
    as (_ & Hcap).
  destruct (Hcap H) as (_ & Hlogin & Hrefresh).
  split; [exact H | split; [apply Hlogin | apply Hrefresh]].
Defined.

(** ** Register, then log in *)

Lemma issued_access_token_verifies env now u :
  0 < accessExpiresIn env ->
  jwt.verify (generateAuthToken env now u) (JWT_SECRET env) now
  = Decoded {| jwt_id := _id u; jwt_email := Some (email u);
               jwt_role := Some (role u); jwt_type := None |}.
Proof.
  intros Httl. unfold generateAuthToken, jwt.sign, jwt.verify.
  rewrite String.eqb_refl. cbn [negb].
  destruct (_ <=? _) eqn:E; [|reflexivity].
  apply Z.leb_le in E. lia.
Qed.

(** C9.  With a positive access-token lifetime configured: after a
    registration answered 201, a login with the same email and password on
    the collection it left, at any instant, is answered 200 and carries an
    access token that verifies under the access secret at that instant and
    names the registered user. *)
Theorem register_then_login env svc now salt db n e pw now' salt' :
  0 < accessExpiresIn env ->
  status (snd (register env svc now salt db n e pw)) = 201 ->
  exists v tok rt payload,
    snd (login env now' salt' (fst (register env svc now salt db n e pw)) e pw)
    = json 200 "success" "Login successful" (Session v tok rt)
    /\ jwt.verify tok (JWT_SECRET env) now' = Decoded payload
    /\ jwt_id payload = view_id v
    /\ jwt_email payload = Some e
    /\ view_email v = e /\ view_name v = n.
Proof.
  intros Httl H201.
  destruct (lookup_email db e) as [u|] eqn:Hu.
  { rewrite (register_duplicate _ _ _ _ _ _ _ _ _ Hu) in H201.
    discriminate H201. }
  rewrite (register_success _ _ _ _ _ _ _ _ Hu). cbn [fst].
  pose (r := registered env now salt db n e pw).
  assert (Hr : lookup_email (db ++ [r]) e = Some r)
    by now apply lookup_email_app_new.
  assert (HP : comparePassword r pw = true).
  { unfold comparePassword, r, registered, bcrypt.hash, bcrypt.compare.
    cbn [password]. apply String.eqb_refl. }
  fold r.
  rewrite (login_success env now' salt' (db ++ [r]) e pw r Hr eq_refl eq_refl HP).
  cbn [snd]. unfold login_success_response.
  do 4 eexists. split; [reflexivity|].
  split; [now apply issued_access_token_verifies|].
  repeat split.
Qed.

Lemma register_then_login_witness :
  0 < accessExpiresIn env0
  /\ status (snd (register env0 svc0 1000 7%N [] "alice" "alice@example.com"
                           "Password1!")) = 201
  /\ exists v tok rt payload,
      snd (login env0 9000 3%N
                 (fst (register env0 svc0 1000 7%N [] "alice"
                                "alice@example.com" "Password1!"))
                 "alice@example.com" "Password1!")
      = json 200 "success" "Login successful" (Session v tok rt)
      /\ jwt.verify tok (JWT_SECRET env0) 9000 = Decoded payload
      /\ jwt_id payload = view_id v
      /\ jwt_email payload = Some "alice@example.com"
      /\ view_email v = "alice@example.com" /\ view_name v = "alice".
Proof.
  split; [reflexivity | split; [reflexivity|]].
  apply (register_then_login env0 svc0 1000 7%N [] "alice"
           "alice@example.com" "Password1!" 9000 3%N);
    reflexivity.
Defined.

(** ** Password reset *)

Lemma resetPassword_never_succeeds env now salt db t pw :
  status (snd (resetPassword env now salt db t pw)) <> 200
  /\ fst (resetPassword env now salt db t pw) = db.
Proof.
  unfold resetPassword.
  destruct (jwt.verify t (JWT_SECRET env) now) as [p|err];
    [|split; [discriminate|reflexivity]].
  destruct (type_is p "password_reset"); cbn [negb];
    [|split; [discriminate|reflexivity]].
  unfold findById.
  destruct (lookup_id db (jwt_id p)) as [u|]; cbn [option_map this hydrate];
    [|split; [discriminate|reflexivity]].
  change (passwordResetToken (deselect u)) with (@None Token).
  split; [discriminate|reflexivity].
Qed.

(** The success branch, taken on its own: were it reached for a stored user,
    it would store the hash of the new password, clear the reset token and
    its expiry, empty the session list, and every refresh token naming that
    user would then be answered 401. *)
Lemma resetPassword_apply_db env salt db u pw :
  fst (resetPassword_apply env salt db (hydrate (deselect u)) pw)
  = updateOne db (_id u)
      (fun s => set_refreshTokens []
                  (set_passwordResetExpires None
                     (set_passwordResetToken None
                        (set_password
                           (Some (bcrypt.hash pw (saltRounds env) salt)) s)))).
Proof. reflexivity. Qed.

Lemma resetPassword_apply_effects env salt db u pw :
  lookup_id db (_id u) = Some u ->
  exists u',
    lookup_id (fst (resetPassword_apply env salt db (hydrate (deselect u)) pw))
              (_id u) = Some u'
    /\ password u' = Some (bcrypt.hash pw (saltRounds env) salt)
    /\ passwordResetToken u' = None
    /\ passwordResetExpires u' = None
    /\ refreshTokens u' = []
    /\ forall now salt' t p,
        verifyRefreshToken env now t = Decoded p -> jwt_id p = _id u ->
        status (snd (refresh env now salt'
                       (fst (resetPassword_apply env salt db
                                                 (hydrate (deselect u)) pw))
                       (Some t))) = 401.
Proof.
  intros Hu. rewrite resetPassword_apply_db.
  eexists.
  split; [apply updateOne_lookup_same; [intros s; reflexivity|exact Hu]|].
  repeat split.
  intros now salt' t p Hv Hid.
  destruct (isActive u) eqn:HA.
  - erewrite refresh_unknown_token; [reflexivity|exact Hv| | |].
    + rewrite Hid.
      apply updateOne_lookup_same; [intros s; reflexivity|exact Hu].
    + exact HA.
    + reflexivity.
  - erewrite refresh_deactivated; [reflexivity|exact Hv| |].
    + rewrite Hid.
      apply updateOne_lookup_same; [intros s; reflexivity|exact Hu].
    + exact HA.
Qed.

(** C5, on the code.  alice asks for a reset at instant 2000; the token she
    is sent verifies under the access secret one second later, carries type
    [password_reset], equals the stored token, and the stored expiry lies
    ahead.  [resetPassword] still answers 400 and changes nothing: it loads
    the user without the [select: false] path [passwordResetToken], so the
    stored-token check never passes. *)
Theorem resetPassword_rejects_issued_token :
  jwt.verify alice_reset_token (JWT_SECRET env0) 3000
  = Decoded {| jwt_id := 1%nat; jwt_email := None; jwt_role := None;
               jwt_type := Some "password_reset" |}
  /\ option_map passwordResetToken (lookup_id db_reset_requested 1%nat)
     = Some (Some alice_reset_token)
  /\ option_map passwordResetExpires (lookup_id db_reset_requested 1%nat)
     = Some (Some (2000 + 60 * 60 * 1000))
  /\ resetPassword env0 3000 0%N db_reset_requested alice_reset_token
                   "NewPassw0rd!"
     = (db_reset_requested, fail 400 "Invalid or expired reset token")
  /\ forall env now salt db t pw,
      status (snd (resetPassword env now salt db t pw)) <> 200.
Proof.
  repeat apply conj; try reflexivity.
  intros env now salt db t pw.
  apply (resetPassword_never_succeeds env now salt db t pw).
Qed.

(** ** Password-reset requests *)

Lemma forgotPassword_status env svc now salt db e :
  status (snd (forgotPassword env svc now salt db e)) = 200.
Proof.
  unfold forgotPassword, findOne.
  destruct (lookup_email db e) as [u|]; cbn [option_map]; [|reflexivity].
  destruct (generatePasswordResetToken env now (hydrate (deselect u)))
    as [tok d].
  destruct (save env salt db d) as [db' d'].
  reflexivity.
Qed.

(** C8, on the code.  Both requests are answered 200, but the body tells
    them apart: the message for an email that has an account differs from
    the message for an email that has none. *)
Theorem forgotPassword_reveals_existence :
  status (snd (forgotPassword env0 svc0 2000 0%N [alice] "alice@example.com"))
  = 200
  /\ status (snd (forgotPassword env0 svc0 2000 0%N [alice] "bob@example.com"))
     = 200
  /\ message (snd (forgotPassword env0 svc0 2000 0%N [alice]
                                  "alice@example.com"))
     = "Password reset email sent successfully"
  /\ message (snd (forgotPassword env0 svc0 2000 0%N [alice]
                                  "bob@example.com"))
     = "If a user with that email exists, we have sent a password reset link"
  /\ snd (forgotPassword env0 svc0 2000 0%N [alice] "alice@example.com")
     <> snd (forgotPassword env0 svc0 2000 0%N [alice] "bob@example.com")
  /\ forall env svc now salt db e e',
      lookup_email db e <> None -> lookup_email db e' = None ->
      snd (forgotPassword env svc now salt db e)
      <> snd (forgotPassword env svc now salt db e').
Proof.
  repeat apply conj; try reflexivity.
  - discriminate.
  - intros env svc now salt db e e' He He'.
    unfold forgotPassword, findOne. rewrite He'.
    destruct (lookup_email db e) as [u|]; [|contradiction].
    cbn [option_map].
    destruct (generatePasswordResetToken env now (hydrate (deselect u)))
      as [tok d].
    destruct (save env salt db d) as [db' d'].
    cbn [sendPasswordReset snd]. discriminate.
Qed.

(** ** Purpose tokens *)

Lemma type_is_other p s s' :
  jwt_type p = Some s -> s <> s' -> type_is p s' = false.
Proof.
  intros H Hne. unfold type_is. rewrite H. now apply String.eqb_neq.
Qed.

Lemma type_is_false p s : jwt_type p <> Some s -> type_is p s = false.
Proof.
  intros H. unfold type_is. destruct (jwt_type p) as [t|]; [|reflexivity].
  apply String.eqb_neq. congruence.
Qed.

Lemma verifyEmail_wrong_type env now salt db t p :
  jwt.verify t (JWT_SECRET env) now = Decoded p ->
  type_is p "email_verification" = false ->
  verifyEmail env now salt db (Some t)
  = (db, fail 400 "Invalid verification token").
Proof.
  intros Hv Ht. unfold verifyEmail.
  now rewrite (verified_is_signed _ _ _ _ Hv), Hv, Ht.
Qed.

Lemma resetPassword_wrong_type env now salt db t pw p :
  jwt.verify t (JWT_SECRET env) now = Decoded p ->
  type_is p "password_reset" = false ->
  resetPassword env now salt db t pw = (db, fail 400 "Invalid reset token").
Proof. intros Hv Ht. unfold resetPassword. now rewrite Hv, Ht. Qed.

Lemma authenticate_bearer env now db t p u :
  jwt.verify t (JWT_SECRET env) now = Decoded p ->
  lookup_id db (jwt_id p) = Some u -> isActive u = true ->
  authenticate env now db (Some [Opaque "Bearer"; t]) = next_user (deselect u).
Proof.
  intros Hv Hu HA. unfold authenticate.
  change (startsWith_Bearer [Opaque "Bearer"; t]) with true.
  cbn [nth_error]. rewrite (verified_is_signed _ _ _ _ Hv), Hv.
  unfold findById. rewrite Hu. loaded u. now rewrite HA.
Qed.

(** C1, as the code has it.  For a token that verifies under the access
    secret: VerifyEmail answers 400 and changes nothing unless its type is
    [email_verification], so a [password_reset] token fails there;
    ResetPassword answers 400 and changes nothing unless its type is
    [password_reset], so an [email_verification] token fails there; the
    [authenticate] middleware never reads the type and accepts the token as
    a bearer token whenever it names an existing active user. *)
Theorem purpose_token_scope env now salt db t p :
  jwt.verify t (JWT_SECRET env) now = Decoded p ->
  (jwt_type p <> Some "email_verification" ->
   verifyEmail env now salt db (Some t)
   = (db, fail 400 "Invalid verification token"))
  /\ (jwt_type p = Some "password_reset" ->
      verifyEmail env now salt db (Some t)
      = (db, fail 400 "Invalid verification token"))
  /\ (jwt_type p <> Some "password_reset" ->
      forall pw, resetPassword env now salt db t pw
                 = (db, fail 400 "Invalid reset token"))
  /\ (jwt_type p = Some "email_verification" ->
      forall pw, resetPassword env now salt db t pw
                 = (db, fail 400 "Invalid reset token"))
  /\ (forall u, lookup_id db (jwt_id p) = Some u -> isActive u = true ->
                authenticate env now db (Some [Opaque "Bearer"; t])
                = next_user (deselect u)).
Proof.
  intros Hv. repeat apply conj.
  - intros Ht. apply (verifyEmail_wrong_type _ _ _ _ _ p Hv).
    now apply type_is_false.
  - intros Ht. apply (verifyEmail_wrong_type _ _ _ _ _ p Hv).
    apply (type_is_other _ _ _ Ht). discriminate.
  - intros Ht pw. apply (resetPassword_wrong_type _ _ _ _ _ _ p Hv).
    now apply type_is_false.
  - intros Ht pw. apply (resetPassword_wrong_type _ _ _ _ _ _ p Hv).
    apply (type_is_other _ _ _ Ht). discriminate.
  - intros u. now apply authenticate_bearer.
Qed.

Lemma purpose_token_scope_witness :
  jwt.verify alice_reset_token (JWT_SECRET env0) 3000
  = Decoded {| jwt_id := 1%nat; jwt_email := None; jwt_role := None;
               jwt_type := Some "password_reset" |}
  /\ jwt.verify alice_verification_token (JWT_SECRET env0) 3000
     = Decoded {| jwt_id := 1%nat; jwt_email := None; jwt_role := None;
                  jwt_type := Some "email_verification" |}
  /\ verifyEmail env0 3000 0%N [alice] (Some alice_reset_token)
     = ([alice], fail 400 "Invalid verification token")
  /\ resetPassword env0 3000 0%N [alice] alice_verification_token
                   "NewPassw0rd!"
     = ([alice], fail 400 "Invalid reset token")
  /\ authenticate env0 3000 [alice] (Some [Opaque "Bearer"; alice_reset_token])
     = next_user (deselect alice).
Proof.
  destruct (purpose_token_scope env0 3000 0%N [alice] alice_reset_token
              {| jwt_id := 1%nat; jwt_email := None; jwt_role := None;
                 jwt_type := Some "password_reset" |} eq_refl)
    as (_ & Hverify & _ & _ & Hauth).
  destruct (purpose_token_scope env0 3000 0%N [alice] alice_verification_token
              {| jwt_id := 1%nat; jwt_email := None; jwt_role := None;
                 jwt_type := Some "email_verification" |} eq_refl)
    as (_ & _ & _ & Hreset & _).
  split; [reflexivity | split; [reflexivity | split; [|split]]].
  - exact (Hverify eq_refl).
  - exact (Hreset eq_refl "NewPassw0rd!").
  - exact (Hauth alice eq_refl eq_refl).
Defined.

(** C1, as stated, fails: the reset token issued to alice is accepted by
    [authenticate] as her bearer token. *)
Lemma authenticate_accepts_reset_token :
  ~ (forall env now db h t p,
        nth_error h 1 = Some t ->
        jwt.verify t (JWT_SECRET env) now = Decoded p ->
        jwt_type p = Some "password_reset" ->
        forall u, authenticate env now db (Some h) <> next_user u).
Proof.
  intros H.
  apply (H env0 3000 [alice] [Opaque "Bearer"; alice_reset_token]
           alice_reset_token
           {| jwt_id := 1%nat; jwt_email := None; jwt_role := None;
              jwt_type := Some "password_reset" |}
           eq_refl eq_refl eq_refl (deselect alice)).
  reflexivity.
Qed.

(** * Further properties *)

(** ** Logging out *)

Lemma without_token_absent t l :
  existsb (fun r => Token_eqb (token r) t) (without_token t l) = false.
Proof.
  unfold without_token. induction l as [|r l IH]; cbn [filter existsb].
  - reflexivity.
  - destruct (Token_eqb (token r) t) eqn:E; cbn [negb existsb].
    + exact IH.
    + now rewrite E, IH.
Qed.

Lemma without_token_other t t' l :
  t' <> t ->
  existsb (fun r => Token_eqb (token r) t') (without_token t l)
  = existsb (fun r => Token_eqb (token r) t') l.
Proof.
  intros Hne. unfold without_token.
  induction l as [|r l IH]; cbn [filter existsb]; [reflexivity|].
  destruct (Token_eqb (token r) t) eqn:E; cbn [negb existsb].
  - rewrite IH. unfold Token_eqb in *.
    destruct (Token_eq_dec (token r) t) as [Ht|]; [|discriminate].
    destruct (Token_eq_dec (token r) t') as [Ht'|]; [congruence|reflexivity].
  - now rewrite IH.
Qed.

Lemma logout_one_db env salt db x t :
  falsy (Some t) = false ->
  logout env salt db (hydrate x) (Some t)
  = (updateOne db (_id x)
       (set_refreshTokens (without_token t (refreshTokens x))),
     json 200 "success" "Logged out successfully" NoData).
Proof. intros Hf. unfold logout. rewrite Hf. reflexivity. Qed.

(** Logging out with a named token: only that session goes. *)
Theorem logout_one_session env salt db u t :
  lookup_id db (_id u) = Some u -> falsy (Some t) = false ->
  exists u',
    lookup_id (fst (logout env salt db (hydrate (deselect u)) (Some t)))
              (_id u) = Some u'
    /\ refreshTokens u' = without_token t (refreshTokens u)
    /\ tokenExists u' t = false
    /\ (forall t', t' <> t -> tokenExists u' t' = tokenExists u t')
    /\ (forall now salt' p,
           verifyRefreshToken env now t = Decoded p -> jwt_id p = _id u ->
           status (snd (refresh env now salt'
                          (fst (logout env salt db (hydrate (deselect u))
                                       (Some t)))
                          (Some t))) = 401)
    /\ (forall now salt' t' p,
           t' <> t -> verifyRefreshToken env now t' = Decoded p ->
           jwt_id p = _id u -> isActive u = true ->
           tokenExists u t' = true ->
           status (snd (refresh env now salt'
                          (fst (logout env salt db (hydrate (deselect u))
                                       (Some t)))
                          (Some t'))) = 200).
Proof.
  intros Hu Hf. rewrite (logout_one_db env salt db (deselect u) t Hf).
  cbn [fst].
  change (_id (deselect u)) with (_id u).
  change (refreshTokens (deselect u)) with (refreshTokens u).
  set (u' := set_refreshTokens (without_token t (refreshTokens u)) u).
  assert (Hu' : lookup_id
                  (updateOne db (_id u)
                     (set_refreshTokens (without_token t (refreshTokens u))))
                  (_id u) = Some u').
  { apply updateOne_lookup_same; [intros s; reflexivity|exact Hu]. }
  exists u'. repeat apply conj.
  - exact Hu'.
  - reflexivity.
  - apply without_token_absent.
  - intros t' Hne. now apply without_token_other.
  - intros now salt' p Hv Hid.
    assert (Hp : lookup_id
                   (updateOne db (_id u)
                      (set_refreshTokens (without_token t (refreshTokens u))))
                   (jwt_id p) = Some u') by (rewrite Hid; exact Hu').
    clear Hu'. rename Hp into Hu'.
    destruct (isActive u) eqn:HA.
    + rewrite (refresh_unknown_token _ _ _ _ _ _ _ Hv Hu' HA);
        [reflexivity|apply without_token_absent].
    + now rewrite (refresh_deactivated _ _ _ _ _ _ _ Hv Hu' HA).
  - intros now salt' t' p Hne Hv Hid HA HT.
    assert (Hp : lookup_id
                   (updateOne db (_id u)
                      (set_refreshTokens (without_token t (refreshTokens u))))
                   (jwt_id p) = Some u') by (rewrite Hid; exact Hu').
    clear Hu'. rename Hp into Hu'.
    rewrite (refresh_success _ _ _ _ _ _ _ Hv Hu' HA); [reflexivity|].
    unfold tokenExists in *. cbn [refreshTokens u' set_refreshTokens].
    rewrite without_token_other by exact Hne. exact HT.
Qed.

Lemma logout_one_session_witness :
  lookup_id [alice_sessions] (_id alice_sessions) = Some alice_sessions
  /\ falsy (Some (issued_refresh_token env0 1000 1%nat)) = false
  /\ exists u',
      lookup_id (fst (logout env0 0%N [alice_sessions]
                             (hydrate (deselect alice_sessions))
                             (Some (issued_refresh_token env0 1000 1%nat))))
                (_id alice_sessions) = Some u'
      /\ tokenExists u' (issued_refresh_token env0 1000 1%nat) = false
      /\ status (snd (refresh env0 6000 0%N
                        (fst (logout env0 0%N [alice_sessions]
                                (hydrate (deselect alice_sessions))
                                (Some (issued_refresh_token env0 1000 1%nat))))
                        (Some (issued_refresh_token env0 3000 1%nat)))) = 200.
Proof.
  split; [reflexivity | split; [reflexivity|]].
  destruct (logout_one_session env0 0%N [alice_sessions] alice_sessions
              (issued_refresh_token env0 1000 1%nat) eq_refl eq_refl)
    as (u' & H1 & _ & H3 & _ & _ & H6).
  exists u'. split; [exact H1 | split; [exact H3|]].
  apply (H6 6000 0%N (issued_refresh_token env0 3000 1%nat)
            {| jwt_id := 1%nat; jwt_email := None; jwt_role := None;
               jwt_type := None |});
    try reflexivity.
  discriminate.
Defined.

Lemma logout_all_revokes_witness :
  status (snd (refresh env0 6000 0%N
                 (fst (logout env0 0%N [alice_sessions]
                              (hydrate (deselect alice_sessions)) None))
                 (Some (issued_refresh_token env0 3000 1%nat)))) = 401.
Proof.
  apply (logout_all_revokes env0 0%N [alice_sessions] alice_sessions 6000 0%N
           (issued_refresh_token env0 3000 1%nat)
           {| jwt_id := 1%nat; jwt_email := None; jwt_role := None;
              jwt_type := None |});
    reflexivity.
Defined.

(** ** Email verification *)

Lemma verifyEmail_missing env now salt db t :
  falsy t = true ->
  verifyEmail env now salt db t
  = (db, fail 400 "Verification token is required").
Proof.
  intros H. unfold verifyEmail. destruct t as [t|]; [|reflexivity].
  now rewrite H.
Qed.

Lemma verifyEmail_rejected env now salt db t e :
  falsy (Some t) = false ->
  jwt.verify t (JWT_SECRET env) now = Rejected e ->
  verifyEmail env now salt db (Some t)
  = (db, fail 400 (match e with
                   | TokenExpiredError => "Verification token has expired"
                   | JsonWebTokenError => "Invalid verification token"
                   end)).
Proof.
  intros Hf Hv. unfold verifyEmail. rewrite Hf, Hv. now destruct e.
Qed.

Lemma verifyEmail_no_user env now salt db t p :
  jwt.verify t (JWT_SECRET env) now = Decoded p ->
  type_is p "email_verification" = true ->
  lookup_id db (jwt_id p) = None ->
  verifyEmail env now salt db (Some t) = (db, fail 404 "User not found").
Proof.
  intros Hv Ht Hu. unfold verifyEmail.
  rewrite (verified_is_signed _ _ _ _ Hv), Hv, Ht. unfold findById.
  now rewrite Hu.
Qed.

Lemma verifyEmail_already env now salt db t p u :
  jwt.verify t (JWT_SECRET env) now = Decoded p ->
  type_is p "email_verification" = true ->
  lookup_id db (jwt_id p) = Some u -> isEmailVerified u = true ->
  verifyEmail env now salt db (Some t)
  = (db, fail 400 "Email is already verified").
Proof.
  intros Hv Ht Hu HE. unfold verifyEmail.
  rewrite (verified_is_signed _ _ _ _ Hv), Hv, Ht. unfold findById.
  rewrite Hu. loaded u. now rewrite HE.
Qed.

Lemma verifyEmail_success env now salt db t p u :
  jwt.verify t (JWT_SECRET env) now = Decoded p ->
  type_is p "email_verification" = true ->
  lookup_id db (jwt_id p) = Some u -> isEmailVerified u = false ->
  verifyEmail env now salt db (Some t)
  = (updateOne db (_id u) email_verified,
     json 200 "success" "Email verified successfully" NoData).
Proof.
  intros Hv Ht Hu HE. unfold verifyEmail.
  rewrite (verified_is_signed _ _ _ _ Hv), Hv, Ht. unfold findById.
  rewrite Hu. loaded u. rewrite HE. reflexivity.
Qed.

Lemma verifyEmail_cases env now salt db t :
  (exists r, verifyEmail env now salt db t = (db, r)
             /\ (status r = 400 \/ status r = 404))
  \/ (exists tok p u,
         t = Some tok
         /\ jwt.verify tok (JWT_SECRET env) now = Decoded p
         /\ type_is p "email_verification" = true
         /\ lookup_id db (jwt_id p) = Some u
         /\ isEmailVerified u = false
         /\ verifyEmail env now salt db t
            = (updateOne db (_id u) email_verified,
               json 200 "success" "Email verified successfully" NoData)).
Proof.
  destruct (falsy t) eqn:Hf.
  { left. rewrite (verifyEmail_missing _ _ _ _ _ Hf). eauto. }
  destruct t as [tok|]; [|discriminate].
  destruct (jwt.verify tok (JWT_SECRET env) now) as [p|err] eqn:Hv.
  2:{ left. rewrite (verifyEmail_rejected _ _ _ _ _ _ Hf Hv). eauto. }
  destruct (type_is p "email_verification") eqn:Ht.
  2:{ left. rewrite (verifyEmail_wrong_type _ _ _ _ _ _ Hv Ht). eauto. }
  destruct (lookup_id db (jwt_id p)) as [u|] eqn:Hu.
  2:{ left. rewrite (verifyEmail_no_user _ _ _ _ _ _ Hv Ht Hu). eauto. }
  destruct (isEmailVerified u) eqn:HE.
  { left. rewrite (verifyEmail_already _ _ _ _ _ _ _ Hv Ht Hu HE). eauto. }
  right. exists tok, p, u. repeat split; try assumption.
  now apply (verifyEmail_success env now salt db tok p u).
Qed.

(** A verification token is accepted once, and whatever token is stored. *)
Theorem verifyEmail_once env now salt db t p u :
  jwt.verify t (JWT_SECRET env) now = Decoded p ->
  jwt_type p = Some "email_verification" ->
  lookup_id db (jwt_id p) = Some u -> isEmailVerified u = false ->
  status (snd (verifyEmail env now salt db (Some t))) = 200
  /\ lookup_id (fst (verifyEmail env now salt db (Some t))) (jwt_id p)
     = Some (email_verified u)
  /\ isEmailVerified (email_verified u) = true
  /\ emailVerificationToken (email_verified u) = None
  /\ (forall now' salt',
         jwt.verify t (JWT_SECRET env) now' = Decoded p ->
         verifyEmail env now' salt'
                     (fst (verifyEmail env now salt db (Some t))) (Some t)
         = (fst (verifyEmail env now salt db (Some t)),
            fail 400 "Email is already verified")).
Proof.
  intros Hv Hty Hu HE.
  assert (Ht : type_is p "email_verification" = true).
  { unfold type_is. rewrite Hty. reflexivity. }
  pose proof (lookup_id_In _ _ _ Hu) as [_ Hid].
  rewrite (verifyEmail_success _ _ _ _ _ _ _ Hv Ht Hu HE). cbn [fst snd].
  assert (Hu' : lookup_id (updateOne db (_id u) email_verified) (jwt_id p)
                = Some (email_verified u)).
  { rewrite <- Hid. apply updateOne_lookup_same; [intros s; reflexivity|].
    now rewrite Hid. }
  repeat apply conj; try reflexivity.
  - exact Hu'.
  - intros now' salt' Hv'.
    now apply (verifyEmail_already env now' salt' _ t p (email_verified u)).
Qed.

Lemma verifyEmail_once_witness :
  status (snd (verifyEmail env0 3000 0%N [alice]
                           (Some alice_verification_token))) = 200
  /\ lookup_id (fst (verifyEmail env0 3000 0%N [alice]
                                 (Some alice_verification_token))) 1%nat
     = Some (email_verified alice).
Proof.
  destruct (verifyEmail_once env0 3000 0%N [alice] alice_verification_token
              {| jwt_id := 1%nat; jwt_email := None; jwt_role := None;
                 jwt_type := Some "email_verification" |}
              alice eq_refl eq_refl eq_refl eq_refl)
    as (H1 & H2 & _).
  split; [exact H1 | exact H2].
Defined.

(** [verifyEmail] writes only when it answers 200; its other answers are 400
    or 404, with an expired token told apart from an invalid one. *)
Theorem verifyEmail_frame env now salt db t :
  (status (snd (verifyEmail env now salt db t)) = 200
   \/ status (snd (verifyEmail env now salt db t)) = 400
   \/ status (snd (verifyEmail env now salt db t)) = 404)
  /\ (status (snd (verifyEmail env now salt db t)) <> 200 ->
      fst (verifyEmail env now salt db t) = db)
  /\ (forall tok,
         t = Some tok -> falsy t = false ->
         jwt.verify tok (JWT_SECRET env) now = Rejected TokenExpiredError ->
         snd (verifyEmail env now salt db t)
         = fail 400 "Verification token has expired")
  /\ (forall tok,
         t = Some tok -> falsy t = false ->
         jwt.verify tok (JWT_SECRET env) now = Rejected JsonWebTokenError ->
         snd (verifyEmail env now salt db t)
         = fail 400 "Invalid verification token").
Proof.
  repeat apply conj.
  - destruct (verifyEmail_cases env now salt db t)
      as [(r & Hr & [Hs|Hs]) | (tok & p & u & _ & _ & _ & _ & _ & Hr)];
      rewrite Hr; cbn [snd]; auto.
  - destruct (verifyEmail_cases env now salt db t)
      as [(r & Hr & _) | (tok & p & u & _ & _ & _ & _ & _ & Hr)];
      rewrite Hr; cbn [fst snd]; [reflexivity|].
    intros H. now contradiction H.
  - intros tok -> Hf Hv. now rewrite (verifyEmail_rejected _ _ _ _ _ _ Hf Hv).
  - intros tok -> Hf Hv. now rewrite (verifyEmail_rejected _ _ _ _ _ _ Hf Hv).
Qed.

(** ** Sending the verification email, then verifying *)

Lemma sendVerification_already env svc now salt db x :
  isEmailVerified x = true ->
  sendVerification env svc now salt db (hydrate x)
  = (db, fail 400 "Email is already verified").
Proof. intros H. unfold sendVerification. cbn [this hydrate]. now rewrite H. Qed.

Lemma sendVerification_sent env svc now salt db x :
  isEmailVerified x = false ->
  sendVerification env svc now salt db (hydrate x)
  = (updateOne db (_id x)
       (set_emailVerificationToken
          (Some (issued_verification_token env now (_id x)))),
     json 200 "success" "Verification email sent successfully" NoData).
Proof.
  intros H. unfold sendVerification. cbn [this hydrate]. rewrite H.
  reflexivity.
Qed.

Lemma issued_verification_token_verify env now now' id :
  jwt.verify (issued_verification_token env now id) (JWT_SECRET env) now'
  = if now / 1000 + 24 * 60 * 60 <=? now' / 1000
    then Rejected TokenExpiredError
    else Decoded {| jwt_id := id; jwt_email := None; jwt_role := None;
                    jwt_type := Some "email_verification" |}.
Proof.
  unfold issued_verification_token, jwt.sign, jwt.verify, jwt.clockTimestamp.
  now rewrite String.eqb_refl.
Qed.

(** The token [sendVerification] issues verifies the account for twenty-four
    hours, and is reported expired from then on. *)
Theorem sendVerification_then_verifyEmail env svc now salt db u now' salt' :
  lookup_id db (_id u) = Some u -> isEmailVerified u = false ->
  let tok := issued_verification_token env now (_id u) in
  let db1 :=
    fst (sendVerification env svc now salt db (hydrate (deselect u))) in
  status (snd (sendVerification env svc now salt db (hydrate (deselect u))))
  = 200
  /\ lookup_id db1 (_id u) = Some (set_emailVerificationToken (Some tok) u)
  /\ (now' / 1000 < now / 1000 + 24 * 60 * 60 ->
      status (snd (verifyEmail env now' salt' db1 (Some tok))) = 200
      /\ exists u', lookup_id (fst (verifyEmail env now' salt' db1 (Some tok)))
                              (_id u) = Some u'
                    /\ isEmailVerified u' = true
                    /\ emailVerificationToken u' = None)
  /\ (now / 1000 + 24 * 60 * 60 <= now' / 1000 ->
      verifyEmail env now' salt' db1 (Some tok)
      = (db1, fail 400 "Verification token has expired")).
Proof.
  intros Hu HE tok db1. subst db1.
  rewrite (sendVerification_sent env svc now salt db (deselect u) HE).
  cbn [fst snd]. change (_id (deselect u)) with (_id u). fold tok.
  assert (Hu1 : lookup_id
                  (updateOne db (_id u)
                     (set_emailVerificationToken (Some tok)))
                  (_id u) = Some (set_emailVerificationToken (Some tok) u)).
  { apply updateOne_lookup_same; [intros s; reflexivity|exact Hu]. }
  repeat apply conj.
  - reflexivity.
  - exact Hu1.
  - intros Hlt.
    assert (Hv : jwt.verify tok (JWT_SECRET env) now'
                 = Decoded {| jwt_id := _id u; jwt_email := None;
                              jwt_role := None;
                              jwt_type := Some "email_verification" |}).
    { unfold tok. rewrite issued_verification_token_verify.
      destruct (_ <=? _) eqn:E; [|reflexivity].
      apply Z.leb_le in E. lia. }
    rewrite (verifyEmail_success env now' salt' _ tok _
               (set_emailVerificationToken (Some tok) u) Hv eq_refl Hu1 HE).
    cbn [fst snd]. split; [reflexivity|].
    eexists. split.
    + apply updateOne_lookup_same; [intros s; reflexivity|exact Hu1].
    + split; reflexivity.
  - intros Hge.
    assert (Hv : jwt.verify tok (JWT_SECRET env) now'
                 = Rejected TokenExpiredError).
    { unfold tok. rewrite issued_verification_token_verify.
      destruct (_ <=? _) eqn:E; [reflexivity|].
      apply Z.leb_gt in E. lia. }
    now rewrite (verifyEmail_rejected env now' salt' _ tok _ eq_refl Hv).
Qed.

Lemma sendVerification_then_verifyEmail_witness :
  lookup_id [alice] (_id alice) = Some alice
  /\ isEmailVerified alice = false
  /\ status (snd (verifyEmail env0 5000 0%N
                    (fst (sendVerification env0 svc0 2000 0%N [alice]
                                           (hydrate (deselect alice))))
                    (Some (issued_verification_token env0 2000 1%nat)))) = 200.
Proof.
  split; [reflexivity | split; [reflexivity|]].
  destruct (sendVerification_then_verifyEmail env0 svc0 2000 0%N [alice] alice
              5000 0%N eq_refl eq_refl) as (_ & _ & H & _).
  apply H. reflexivity.
Defined.

(** ** Changing the password *)





(** A missing or empty field is answered 400 before anything is read. *)
Theorem changePassword_requires_both env salt db r current new :
  falsy_string current = true \/ falsy_string new = true ->
  changePassword env salt db r current new
  = Returned (db, fail 400 "Current password and new password are required").
Proof.
  intros H. unfold changePassword.
  destruct current as [c|]; [|reflexivity].
  destruct new as [n|]; [|reflexivity].
  destruct H as [H|H]; rewrite H; [reflexivity|].
  now rewrite orb_true_r.
Qed.

Lemma changePassword_requires_both_witness :
  changePassword env0 0%N [alice] (deselect alice) (Some "Password1!") None
  = Returned ([alice],
              fail 400 "Current password and new password are required").
Proof.
  apply (changePassword_requires_both env0 0%N [alice] (deselect alice)
           (Some "Password1!") None).
  right. reflexivity.
Defined.

(** ** The HTTP gates *)

Lemma authenticate_bearer_token env now db h :
  authenticate env now db h
  = match bearer_token h with
    | None => next_AppError "Access token is required" 401
    | Some t =>
        if falsy (Some t) then next_AppError "Access token is required" 401
        else
          match jwt.verify t (JWT_SECRET env) now with
          | Rejected JsonWebTokenError => next_AppError "Invalid token" 401
          | Rejected TokenExpiredError => next_AppError "Token expired" 401
          | Decoded decoded =>
              match lookup_id db (jwt_id decoded) with
              | None => next_AppError "User no longer exists" 401
              | Some u =>
                  if isActive u then next_user (deselect u)
                  else next_AppError "Account is deactivated" 401
              end
          end
    end.
Proof.
  unfold authenticate. fold (bearer_token h).
  destruct (bearer_token h) as [t|]; [|reflexivity].
  destruct (falsy (Some t)); [reflexivity|].
  destruct (jwt.verify t (JWT_SECRET env) now) as [p|[]]; try reflexivity.
  unfold findById. destruct (lookup_id db (jwt_id p)) as [u|]; [|reflexivity].
  loaded u. now destruct (isActive u).
Qed.

Lemma optionalAuth_bearer_token env now db h :
  optionalAuth env now db h
  = match bearer_token h with
    | None => None
    | Some t =>
        if falsy (Some t) then None
        else
          match jwt.verify t (JWT_SECRET env) now with
          | Rejected _ => None
          | Decoded decoded =>
              match lookup_id db (jwt_id decoded) with
              | None => None
              | Some u => if isActive u then Some (deselect u) else None
              end
          end
    end.
Proof.
  unfold optionalAuth.
  destruct (bearer_token h) as [t|]; [|reflexivity].
  destruct (falsy (Some t)); [reflexivity|].
  destruct (jwt.verify t (JWT_SECRET env) now) as [p|]; [|reflexivity].
  unfold findById. destruct (lookup_id db (jwt_id p)) as [u|]; [|reflexivity].
  loaded u. now destruct (isActive u).
Qed.

(** [authenticate] accepts exactly the bearer tokens that verify under the
    access secret and name a stored, active user; every refusal is a 401;
    the user it attaches carries none of the [select: false] paths. *)
Theorem authenticate_accepts_iff env now db h :
  (forall x,
      authenticate env now db h = next_user x <->
      exists t p u,
        bearer_token h = Some t
        /\ jwt.verify t (JWT_SECRET env) now = Decoded p
        /\ lookup_id db (jwt_id p) = Some u
        /\ isActive u = true /\ x = deselect u)
  /\ (forall m c, authenticate env now db h = next_AppError m c -> c = 401)
  /\ (forall x,
         authenticate env now db h = next_user x ->
         password x = None /\ emailVerificationToken x = None
         /\ passwordResetToken x = None /\ passwordResetExpires x = None).
Proof.
  rewrite authenticate_bearer_token.
  destruct (bearer_token h) as [t|].
  2:{ repeat apply conj.
      - intros x. split; [discriminate|].
        intros (t & p & u & Ht & _). discriminate.
      - intros m c H. now inversion H.
      - discriminate. }
  destruct (falsy (Some t)) eqn:Hf.
  { repeat apply conj.
    - intros x. split; [discriminate|].
      intros (t0 & p & u & Ht & Hv & _). inversion Ht; subst t0.
      rewrite (verified_is_signed _ _ _ _ Hv) in Hf. discriminate.
    - intros m c H. now inversion H.
    - discriminate. }
  destruct (jwt.verify t (JWT_SECRET env) now) as [p|err] eqn:Hv.
  2:{ repeat apply conj.
      - intros x. split; [destruct err; discriminate|].
        intros (t0 & p & u & Ht & Hv' & _). inversion Ht; subst t0.
        congruence.
      - intros m c H. destruct err; now inversion H.
      - destruct err; discriminate. }
  destruct (lookup_id db (jwt_id p)) as [u|] eqn:Hu.
  2:{ repeat apply conj.
      - intros x. split; [discriminate|].
        intros (t0 & p0 & u & Ht & Hv' & Hu' & _). inversion Ht; subst t0.
        congruence.
      - intros m c H. now inversion H.
      - discriminate. }
  destruct (isActive u) eqn:HA.
  - repeat apply conj.
    + intros x. split.
      * intros H. inversion H. exists t, p, u. auto.
      * intros (t0 & p0 & u0 & Ht & Hv' & Hu' & _ & ->).
        inversion Ht; subst t0. congruence.
    + discriminate.
    + intros x H. inversion H. repeat split.
  - repeat apply conj.
    + intros x. split; [discriminate|].
      intros (t0 & p0 & u0 & Ht & Hv' & Hu' & HA' & _).
      inversion Ht; subst t0. congruence.
    + intros m c H. now inversion H.
    + discriminate.
Qed.

(** [optionalAuth] attaches a user exactly when [authenticate] would accept
    the request, and the same user; otherwise it attaches none. *)
Theorem optionalAuth_agrees_with_authenticate env now db h :
  (forall x, optionalAuth env now db h = Some x <->
             authenticate env now db h = next_user x)
  /\ (optionalAuth env now db h = None <->
      exists m, authenticate env now db h = next_AppError m 401).
Proof.
  rewrite optionalAuth_bearer_token, authenticate_bearer_token.
  destruct (bearer_token h) as [t|].
  2:{ split; [intros x; split; discriminate|]. split; eauto. }
  destruct (falsy (Some t)).
  { split; [intros x; split; discriminate|]. split; eauto. }
  destruct (jwt.verify t (JWT_SECRET env) now) as [p|err].
  2:{ split; [intros x; split; destruct err; discriminate|].
      split; destruct err; eauto. }
  destruct (lookup_id db (jwt_id p)) as [u|].
  2:{ split; [intros x; split; discriminate|]. split; eauto. }
  destruct (isActive u).
  - split.
    + intros x. split; intros H; inversion H; reflexivity.
    + split; [discriminate|]. intros (m & H). discriminate.
  - split; [intros x; split; discriminate|]. split; eauto.
Qed.

(** ** The realtime gate *)




(** ** Roles and ownership *)

Lemma includes_role roles r :
  existsb (fun x => if Role_eq_dec x r then true else false) roles = true
  <-> In r roles.
Proof.
  rewrite existsb_exists. split.
  - intros (x & Hin & Hx). destruct (Role_eq_dec x r); [now subst|discriminate].
  - intros Hin. exists r. split; [exact Hin|].
    destruct (Role_eq_dec r r); [reflexivity|contradiction].
Qed.

(** [authorize] lets a request through exactly when a user is attached and
    the user's role is among the allowed ones; behind [authenticate] that
    role is the stored one, whatever role the token claims. *)
Theorem authorize_by_stored_role env now db roles t p u :
  jwt.verify t (JWT_SECRET env) now = Decoded p ->
  lookup_id db (jwt_id p) = Some u -> isActive u = true ->
  exists x,
    authenticate env now db (Some [Opaque "Bearer"; t]) = next_user x
    /\ (authorize roles (Some x) = gate_next <-> In (role u) roles)
    /\ (~ In (role u) roles ->
        authorize roles (Some x)
        = gate_AppError "Insufficient permissions" 403)
    /\ authorize roles None = gate_AppError "Authentication required" 401.
Proof.
  intros Hv Hu HA. exists (deselect u).
  split; [now apply (authenticate_bearer env now db t p u)|].
  unfold authorize. change (role (deselect u)) with (role u).
  destruct (existsb (fun r => if Role_eq_dec r (role u) then true else false)
                    roles) eqn:E; cbn [negb].
  - apply includes_role in E. repeat split; auto. contradiction.
  - assert (Hn : ~ In (role u) roles).
    { intros Hin. apply includes_role in Hin. congruence. }
    repeat split; auto; try discriminate. contradiction.
Qed.

Lemma authorize_by_stored_role_witness :
  exists x,
    authenticate env0 3000 [alice]
      (Some [Opaque "Bearer";
             jwt.sign {| jwt_id := 1%nat; jwt_email := None;
                         jwt_role := Some role_admin; jwt_type := None |}
                      (JWT_SECRET env0) 3600 2000])
    = next_user x
    /\ authorize [role_admin; role_moderator] (Some x)
       = gate_AppError "Insufficient permissions" 403.
Proof.
  destruct (authorize_by_stored_role env0 3000 [alice]
              [role_admin; role_moderator]
              (jwt.sign {| jwt_id := 1%nat; jwt_email := None;
                           jwt_role := Some role_admin; jwt_type := None |}
                        (JWT_SECRET env0) 3600 2000)
              {| jwt_id := 1%nat; jwt_email := None;
                 jwt_role := Some role_admin; jwt_type := None |}
              alice eq_refl eq_refl eq_refl)
    as (x & H1 & _ & H3 & _).
  exists x. split; [exact H1|]. apply H3.
  intros [H|[H|[]]]; discriminate H.
Defined.

(** [checkOwnership] lets a request through exactly when the resource
    exists, has an owner, and the user is that owner or an admin. *)
Theorem checkOwnership_passes_iff resource u :
  (checkOwnership resource u = gate_next <->
   exists r owner,
     resource = Some r /\ ownerField r = Some owner
     /\ (owner = _id u \/ role u = role_admin))
  /\ (resource = None ->
      checkOwnership resource u = gate_AppError "Resource not found" 404)
  /\ (forall r owner,
         resource = Some r -> ownerField r = Some owner ->
         owner <> _id u -> role u <> role_admin ->
         checkOwnership resource u
         = gate_AppError "Not authorized to access this resource" 403).
Proof.
  split; [|split].
  - unfold checkOwnership. destruct resource as [r|].
    2:{ split; [discriminate|]. intros (r & o & H & _). discriminate. }
    destruct (ownerField r) as [o|] eqn:Ho.
    2:{ split; [discriminate|]. intros (r' & o & H & Ho' & _).
        inversion H; subst. congruence. }
    destruct (Nat.eqb o (_id u)) eqn:E; cbn [negb andb].
    + apply Nat.eqb_eq in E. split; [|reflexivity]. intros _.
      exists r, o. auto.
    + apply Nat.eqb_neq in E.
      destruct (Role_eq_dec (role u) role_admin) as [Hr|Hr]; cbn [negb].
      * split; [|reflexivity]. intros _. exists r, o. auto.
      * split; [discriminate|].
        intros (r' & o' & H & Ho' & [Hown|Hadm]); inversion H; subst;
          [congruence|contradiction].
  - intros ->. reflexivity.
  - intros r owner -> Ho Hne Hr. unfold checkOwnership. rewrite Ho.
    apply Nat.eqb_neq in Hne. rewrite Hne.
    destruct (Role_eq_dec (role u) role_admin); [contradiction|reflexivity].
Qed.

(** ** Deactivated accounts *)



(** ** Tokens handed out by login *)

Lemma rotated_has_new env now id l :
  In (new_entry env now id) (rotated env now id l).
Proof.
  unfold rotated, slice_last. rewrite skipn_app, length_app.
  cbn [List.length].
  replace (List.length l + 1 - 5 - List.length l)%nat with 0%nat by lia.
  apply in_or_app. right. now left.
Qed.

Lemma login_success_lookup env now db u :
  lookup_id db (_id u) = Some u ->
  lookup_id (login_success_db env now db u) (_id u)
  = Some (logged_in env now u).
Proof.
  intros Hu. unfold login_success_db, logged_in.
  set (reset := fun s => set_lockUntil None (set_loginAttempts 0 s)).
  destruct (0 <? loginAttempts u).
  - apply (updateOne_lookup_same _ _ _ (set_lastLogin now (reset u)));
      [intros s; reflexivity|].
    apply (updateOne_lookup_same _ _ _ (reset u)); [intros s; reflexivity|].
    apply (updateOne_lookup_same _ _ reset u); [intros s; reflexivity|exact Hu].
  - apply (updateOne_lookup_same _ _ _ (set_lastLogin now u));
      [intros s; reflexivity|].
    apply (updateOne_lookup_same _ _ _ u); [intros s; reflexivity|exact Hu].
Qed.

Lemma issued_refresh_token_verify env now now' id :
  verifyRefreshToken env now' (issued_refresh_token env now id)
  = if now / 1000 + refreshExpiresIn env <=? now' / 1000
    then Rejected TokenExpiredError
    else Decoded {| jwt_id := id; jwt_email := None; jwt_role := None;
                    jwt_type := None |}.
Proof.
  unfold verifyRefreshToken, issued_refresh_token, jwt.sign, jwt.verify,
    jwt.clockTimestamp.
  now rewrite String.eqb_refl.
Qed.

Lemma generateAuthToken_verify env now now' u :
  jwt.verify (generateAuthToken env now u) (JWT_SECRET env) now'
  = if now / 1000 + accessExpiresIn env <=? now' / 1000
    then Rejected TokenExpiredError
    else Decoded {| jwt_id := _id u; jwt_email := Some (email u);
                    jwt_role := Some (role u); jwt_type := None |}.
Proof.
  unfold generateAuthToken, jwt.sign, jwt.verify, jwt.clockTimestamp.
  now rewrite String.eqb_refl.
Qed.

(** The pair a successful login returns is good for exactly its lifetime:
    until its expiry second the refresh token refreshes and the access token
    passes [authenticate] as the logged-in user; from that second on the
    refresh token is answered 401 and the access token 'Token expired'. *)
Theorem login_tokens_lifetime env now salt db e pw u now' salt' :
  NoDup (map _id db) -> lookup_email db e = Some u ->
  isLocked now u = false -> isActive u = true ->
  comparePassword u pw = true ->
  exists v tok rt,
    snd (login env now salt db e pw)
    = json 200 "success" "Login successful" (Session v tok rt)
    /\ (now' / 1000 < now / 1000 + refreshExpiresIn env ->
        status (snd (refresh env now' salt' (fst (login env now salt db e pw))
                             (Some rt))) = 200)
    /\ (now / 1000 + refreshExpiresIn env <= now' / 1000 ->
        refresh env now' salt' (fst (login env now salt db e pw)) (Some rt)
        = (fst (login env now salt db e pw),
           fail 401 "Invalid or expired refresh token"))
    /\ (now' / 1000 < now / 1000 + accessExpiresIn env ->
        authenticate env now' (fst (login env now salt db e pw))
                     (Some [Opaque "Bearer"; tok])
        = next_user (deselect (logged_in env now u)))
    /\ (now / 1000 + accessExpiresIn env <= now' / 1000 ->
        authenticate env now' (fst (login env now salt db e pw))
                     (Some [Opaque "Bearer"; tok])
        = next_AppError "Token expired" 401).
Proof.
  intros Hnd Hu HL HA HP.
  pose proof (lookup_email_In _ _ _ Hu) as [Hin _].
  pose proof (NoDup_lookup_id _ _ Hnd Hin) as Hstored.
  rewrite (login_success env now salt db e pw u Hu HL HA HP).
  cbn [fst snd]. unfold login_success_response.
  do 3 eexists. split; [reflexivity|].
  pose proof (login_success_lookup env now db u Hstored) as Hu'.
  repeat apply conj.
  - intros Hlt.
    assert (Hv : verifyRefreshToken env now'
                   (issued_refresh_token env now (_id u))
                 = Decoded {| jwt_id := _id u; jwt_email := None;
                              jwt_role := None; jwt_type := None |}).
    { rewrite issued_refresh_token_verify.
      destruct (_ <=? _) eqn:E; [|reflexivity]. apply Z.leb_le in E. lia. }
    rewrite (refresh_success env now' salt' _ _ _ (logged_in env now u) Hv Hu');
      [reflexivity| |].
    + unfold logged_in. cbn [isActive set_refreshTokens set_lastLogin].
      now destruct (0 <? loginAttempts u).
    + apply tokenExists_In. exists (new_entry env now (_id u)).
      split; [|reflexivity].
      unfold logged_in. cbn [refreshTokens set_refreshTokens].
      apply rotated_has_new.
  - intros Hge.
    apply (refresh_rejected env now' salt' _
             (issued_refresh_token env now (_id u)) TokenExpiredError eq_refl).
    rewrite issued_refresh_token_verify.
    destruct (_ <=? _) eqn:E; [reflexivity|]. apply Z.leb_gt in E. lia.
  - intros Hlt.
    apply (authenticate_bearer env now' _ _
             {| jwt_id := _id u; jwt_email := Some (email u);
                jwt_role := Some (role u); jwt_type := None |}
             (logged_in env now u)).
    + rewrite generateAuthToken_verify.
      destruct (_ <=? _) eqn:E; [|reflexivity]. apply Z.leb_le in E. lia.
    + exact Hu'.
    + unfold logged_in. cbn [isActive set_refreshTokens set_lastLogin].
      now destruct (0 <? loginAttempts u).
  - intros Hge. rewrite authenticate_bearer_token.
    change (bearer_token (Some [Opaque "Bearer"; generateAuthToken env now u]))
      with (Some (generateAuthToken env now u)).
    cbv beta iota.
    change (falsy (Some (generateAuthToken env now u))) with false.
    cbv beta iota. rewrite generateAuthToken_verify.
    destruct (_ <=? _) eqn:E; [reflexivity|]. apply Z.leb_gt in E. lia.
Qed.

Lemma login_tokens_lifetime_witness :
  NoDup (map _id [alice])
  /\ exists v tok rt,
      snd (login env0 2000 0%N [alice] "alice@example.com" "Password1!")
      = json 200 "success" "Login successful" (Session v tok rt)
      /\ status (snd (refresh env0 90000 0%N
                        (fst (login env0 2000 0%N [alice] "alice@example.com"
                                    "Password1!"))
                        (Some rt))) = 200.
Proof.
  assert (Hnd : NoDup (map _id [alice])).
  { repeat constructor. intros []. }
  split; [exact Hnd|].
  destruct (login_tokens_lifetime env0 2000 0%N [alice] "alice@example.com"
              "Password1!" alice 90000 0%N Hnd eq_refl eq_refl eq_refl eq_refl)
    as (v & tok & rt & H1 & H2 & _).
  exists v, tok, rt. split; [exact H1|]. apply H2. reflexivity.
Defined.

(** ** A successful login and the lockout counters *)

(** A successful login stamps [lastLogin]; when failures were counted it
    zeroes the counter and clears the lock, and when none were counted it
    leaves [lockUntil] as it was.  So once a lock has run out, the right
    password logs in and the account starts afresh. *)
Theorem login_success_resets env now salt db e pw u :
  NoDup (map _id db) -> lookup_email db e = Some u ->
  isLocked now u = false -> isActive u = true ->
  comparePassword u pw = true ->
  status (snd (login env now salt db e pw)) = 200
  /\ exists u',
      lookup_id (fst (login env now salt db e pw)) (_id u) = Some u'
      /\ lookup_email (fst (login env now salt db e pw)) e = Some u'
      /\ lastLogin u' = now
      /\ password u' = password u
      /\ (0 < loginAttempts u ->
          loginAttempts u' = 0 /\ lockUntil u' = None)
      /\ (loginAttempts u <= 0 ->
          loginAttempts u' = loginAttempts u /\ lockUntil u' = lockUntil u).
Proof.
  intros Hnd Hu HL HA HP.
  pose proof (lookup_email_In _ _ _ Hu) as [Hin _].
  pose proof (NoDup_lookup_id _ _ Hnd Hin) as Hstored.
  rewrite (login_success env now salt db e pw u Hu HL HA HP).
  cbn [fst snd]. split; [reflexivity|].
  exists (logged_in env now u). repeat apply conj.
  - now apply login_success_lookup.
  - unfold login_success_db, logged_in.
    destruct (0 <? loginAttempts u).
    + set (reset := fun s => set_lockUntil None (set_loginAttempts 0 s)).
      assert (H1 : lookup_email (updateOne db (_id u) reset) e
                   = Some (reset u))
        by (apply updateOne_lookup_email; auto; intros s; reflexivity).
      assert (Hnd1 : NoDup (map _id (updateOne db (_id u) reset)))
        by (rewrite updateOne_ids; [exact Hnd|intros s; reflexivity]).
      assert (H2 : lookup_email
                     (updateOne (updateOne db (_id u) reset) (_id u)
                                (set_lastLogin now)) e
                   = Some (set_lastLogin now (reset u)))
        by (apply (updateOne_lookup_email _ e (set_lastLogin now) (reset u));
            auto; intros s; reflexivity).
      assert (Hnd2 : NoDup (map _id
                              (updateOne (updateOne db (_id u) reset) (_id u)
                                         (set_lastLogin now))))
        by (rewrite updateOne_ids; [exact Hnd1|intros s; reflexivity]).
      apply (updateOne_lookup_email _ e _ (set_lastLogin now (reset u)));
        auto; intros s; reflexivity.
    + assert (H2 : lookup_email (updateOne db (_id u) (set_lastLogin now)) e
                   = Some (set_lastLogin now u))
        by (apply updateOne_lookup_email; auto; intros s; reflexivity).
      assert (Hnd2 : NoDup (map _id
                              (updateOne db (_id u) (set_lastLogin now))))
        by (rewrite updateOne_ids; [exact Hnd|intros s; reflexivity]).
      apply (updateOne_lookup_email _ e _ (set_lastLogin now u));
        auto; intros s; reflexivity.
  - reflexivity.
  - unfold logged_in. now destruct (0 <? loginAttempts u).
  - intros Hpos. apply Z.ltb_lt in Hpos. unfold logged_in. rewrite Hpos.
    split; reflexivity.
  - intros Hle. apply Z.ltb_ge in Hle. unfold logged_in. rewrite Hle.
    split; reflexivity.
Qed.

Lemma login_success_resets_witness :
  NoDup (map _id [alice_locked])
  /\ isLocked alice_lock_over alice_locked = false
  /\ status (snd (login env0 alice_lock_over 0%N [alice_locked]
                        "alice@example.com" "Password1!")) = 200
  /\ exists u',
      lookup_id (fst (login env0 alice_lock_over 0%N [alice_locked]
                            "alice@example.com" "Password1!"))
                (_id alice_locked) = Some u'
      /\ loginAttempts u' = 0 /\ lockUntil u' = None.
Proof.
  assert (Hnd : NoDup (map _id [alice_locked])).
  { repeat constructor. intros []. }
  split; [exact Hnd | split; [reflexivity|]].
  destruct (login_success_resets env0 alice_lock_over 0%N [alice_locked]
              "alice@example.com" "Password1!" alice_locked
              Hnd eq_refl eq_refl eq_refl eq_refl)
    as (H200 & u' & H1 & _ & _ & _ & Hreset & _).
  split; [exact H200|]. exists u'. split; [exact H1|].
  apply Hreset. reflexivity.
Defined.

(** ** Access and refresh tokens do not stand in for each other *)

(** With distinct secrets configured, an access token presented to refresh
    is answered 401 with nothing written, and a refresh token presented to
    [authenticate] is answered 'Invalid token', at every instant. *)
Theorem token_kinds_are_separate env now now' salt db :
  JWT_SECRET env <> JWT_REFRESH_SECRET env ->
  (forall u,
      refresh env now' salt db (Some (generateAuthToken env now u))
      = (db, fail 401 "Invalid or expired refresh token"))
  /\ (forall id,
         refresh env now' salt db
                 (Some (middleware.generateToken env now id))
         = (db, fail 401 "Invalid or expired refresh token"))
  /\ (forall id,
         authenticate env now' db
           (Some [Opaque "Bearer"; issued_refresh_token env now id])
         = next_AppError "Invalid token" 401).
Proof.
  intros Hne.
  assert (H1 : String.eqb (JWT_SECRET env) (JWT_REFRESH_SECRET env) = false)
    by now apply String.eqb_neq.
  assert (H2 : String.eqb (JWT_REFRESH_SECRET env) (JWT_SECRET env) = false)
    by (apply String.eqb_neq; congruence).
  split; [|split].
  - intros u.
    apply (refresh_rejected env now' salt db (generateAuthToken env now u)
             JsonWebTokenError eq_refl).
    unfold verifyRefreshToken, generateAuthToken, jwt.sign, jwt.verify.
    now rewrite H1.
  - intros id.
    apply (refresh_rejected env now' salt db
             (middleware.generateToken env now id) JsonWebTokenError eq_refl).
    unfold verifyRefreshToken, middleware.generateToken, jwt.sign, jwt.verify.
    now rewrite H1.
  - intros id. rewrite authenticate_bearer_token.
    change (bearer_token
              (Some [Opaque "Bearer"; issued_refresh_token env now id]))
      with (Some (issued_refresh_token env now id)).
    cbv beta iota.
    change (falsy (Some (issued_refresh_token env now id))) with false.
    cbv beta iota.
    unfold issued_refresh_token, jwt.sign, jwt.verify.
    now rewrite H2.
Qed.

Lemma token_kinds_are_separate_witness :
  JWT_SECRET env0 <> JWT_REFRESH_SECRET env0
  /\ refresh env0 3000 0%N [alice] (Some (generateAuthToken env0 2000 alice))
     = ([alice], fail 401 "Invalid or expired refresh token").
Proof.
  assert (Hne : JWT_SECRET env0 <> JWT_REFRESH_SECRET env0) by discriminate.
  split; [exact Hne|].
  destruct (token_kinds_are_separate env0 2000 3000 0%N [alice] Hne)
    as (H & _).
  apply H.
Defined.

(** ** The middleware's token helpers *)

(** [verifyRefreshToken] decodes the id out of a token that
    [generateRefreshToken] signed, until the token's expiry second, and
    reports it expired from then on; the helper and the schema method sign
    the same token for the same user and instant; a token from
    [generateToken] passes [authenticate] for a stored active user until its
    own expiry second. *)
Theorem middleware_tokens_round_trip env now now' id :
  (now' / 1000 < now / 1000 + refreshExpiresIn env ->
   verifyRefreshToken env now' (middleware.generateRefreshToken env now id)
   = Decoded {| jwt_id := id; jwt_email := None; jwt_role := None;
                jwt_type := None |})
  /\ (now / 1000 + refreshExpiresIn env <= now' / 1000 ->
      verifyRefreshToken env now' (middleware.generateRefreshToken env now id)
      = Rejected TokenExpiredError)
  /\ (forall d, _id (this d) = id ->
                fst (generateRefreshToken env now d)
                = middleware.generateRefreshToken env now id)
  /\ (forall db u,
         now' / 1000 < now / 1000 + accessExpiresIn env ->
         lookup_id db id = Some u -> isActive u = true ->
         authenticate env now' db
           (Some [Opaque "Bearer"; middleware.generateToken env now id])
         = next_user (deselect u)).
Proof.
  change (middleware.generateRefreshToken env now id)
    with (issued_refresh_token env now id).
  split; [|split; [|split]].
  - intros Hlt. rewrite issued_refresh_token_verify.
    destruct (_ <=? _) eqn:E; [|reflexivity]. apply Z.leb_le in E. lia.
  - intros Hge. rewrite issued_refresh_token_verify.
    destruct (_ <=? _) eqn:E; [reflexivity|]. apply Z.leb_gt in E. lia.
  - intros d Hd. rewrite generateRefreshToken_token. now rewrite Hd.
  - intros db u Hlt Hu HA.
    apply (authenticate_bearer env now' db _
             {| jwt_id := id; jwt_email := None; jwt_role := None;
                jwt_type := None |} u); [|exact Hu|exact HA].
    unfold middleware.generateToken, jwt.sign, jwt.verify, jwt.clockTimestamp.
    rewrite String.eqb_refl. cbn [negb].
    destruct (_ <=? _) eqn:E; [|reflexivity]. apply Z.leb_le in E. lia.
Qed.

Lemma middleware_tokens_round_trip_witness :
  verifyRefreshToken env0 5000 (middleware.generateRefreshToken env0 2000 1%nat)
  = Decoded {| jwt_id := 1%nat; jwt_email := None; jwt_role := None;
               jwt_type := None |}
  /\ authenticate env0 5000 [alice]
       (Some [Opaque "Bearer"; middleware.generateToken env0 2000 1%nat])
     = next_user (deselect alice).
Proof.
  destruct (middleware_tokens_round_trip env0 2000 5000 1%nat)
    as (H1 & _ & _ & H4).
  split.
  - apply H1. reflexivity.
  - apply H4; reflexivity.
Defined.

(** ** Requesting a password reset *)

Lemma forgotPassword_known env svc now salt db e u :
  lookup_email db e = Some u ->
  forgotPassword env svc now salt db e
  = (updateOne db (_id u)
       (fun s => set_passwordResetExpires (Some (now + 60 * 60 * 1000))
                   (set_passwordResetToken
                      (Some (issued_reset_token env now (_id u))) s)),
     json 200 "success" "Password reset email sent successfully" NoData).
Proof.
  intros Hu. unfold forgotPassword, findOne. rewrite Hu. reflexivity.
Qed.

Lemma forgotPassword_unknown env svc now salt db e :
  lookup_email db e = None ->
  fst (forgotPassword env svc now salt db e) = db.
Proof.
  intros Hu. unfold forgotPassword, findOne. now rewrite Hu.
Qed.

(** A reset request for a known email stores on that account the token it
    issues, of type [password_reset] and verifying for one hour, with an
    expiry stamp one hour ahead, and changes nothing else on the account; a
    later request replaces both. *)
Theorem forgotPassword_stores_token env svc now salt db e u :
  NoDup (map _id db) -> lookup_email db e = Some u ->
  let tok := issued_reset_token env now (_id u) in
  let db1 := fst (forgotPassword env svc now salt db e) in
  lookup_id db1 (_id u)
  = Some (set_passwordResetExpires (Some (now + 60 * 60 * 1000))
            (set_passwordResetToken (Some tok) u))
  /\ (forall now',
         now' / 1000 < now / 1000 + 60 * 60 ->
         jwt.verify tok (JWT_SECRET env) now'
         = Decoded {| jwt_id := _id u; jwt_email := None; jwt_role := None;
                      jwt_type := Some "password_reset" |})
  /\ (forall now',
         now / 1000 + 60 * 60 <= now' / 1000 ->
         jwt.verify tok (JWT_SECRET env) now' = Rejected TokenExpiredError)
  /\ (forall now2 salt2,
         exists u2,
           lookup_id (fst (forgotPassword env svc now2 salt2 db1 e)) (_id u)
           = Some u2
           /\ passwordResetToken u2
              = Some (issued_reset_token env now2 (_id u))
           /\ passwordResetExpires u2 = Some (now2 + 60 * 60 * 1000)).
Proof.
  intros Hnd Hu tok db1. subst db1.
  pose proof (lookup_email_In _ _ _ Hu) as [Hin _].
  pose proof (NoDup_lookup_id _ _ Hnd Hin) as Hstored.
  rewrite (forgotPassword_known env svc now salt db e u Hu). cbn [fst].
  fold tok.
  set (f := fun s => set_passwordResetExpires (Some (now + 60 * 60 * 1000))
                       (set_passwordResetToken (Some tok) s)).
  assert (Hf : keeps_id f) by (intros s; reflexivity).
  assert (Hfe : keeps_email f) by (intros s; reflexivity).
  assert (Hu1 : lookup_id (updateOne db (_id u) f) (_id u) = Some (f u))
    by now apply updateOne_lookup_same.
  split; [exact Hu1 | split; [|split]].
  - intros now' Hlt. unfold tok, issued_reset_token, jwt.sign, jwt.verify,
      jwt.clockTimestamp.
    rewrite String.eqb_refl. cbn [negb].
    destruct (_ <=? _) eqn:E; [|reflexivity]. apply Z.leb_le in E. lia.
  - intros now' Hge. unfold tok, issued_reset_token, jwt.sign, jwt.verify,
      jwt.clockTimestamp.
    rewrite String.eqb_refl. cbn [negb].
    destruct (_ <=? _) eqn:E; [reflexivity|]. apply Z.leb_gt in E. lia.
  - intros now2 salt2.
    assert (He : lookup_email (updateOne db (_id u) f) e = Some (f u))
      by now apply updateOne_lookup_email.
    rewrite (forgotPassword_known env svc now2 salt2 _ e (f u) He). cbn [fst].
    eexists. split.
    + apply updateOne_lookup_same; [intros s; reflexivity|exact Hu1].
    + split; reflexivity.
Qed.

Lemma forgotPassword_stores_token_witness :
  NoDup (map _id [alice; bob])
  /\ lookup_id (fst (forgotPassword env0 svc0 2000 0%N [alice; bob]
                                    "bob@example.com")) (_id bob)
     = Some (set_passwordResetExpires (Some (2000 + 60 * 60 * 1000))
               (set_passwordResetToken
                  (Some (issued_reset_token env0 2000 (_id bob))) bob)).
Proof.
  assert (Hnd : NoDup (map _id [alice; bob])).
  { repeat constructor; cbn; intuition discriminate. }
  split; [exact Hnd|].
  destruct (forgotPassword_stores_token env0 svc0 2000 0%N [alice; bob]
              "bob@example.com" bob Hnd eq_refl) as (H & _).
  exact H.
Defined.

(** ** Keys of the collection *)

















(** ** One document per request *)

(** A login reads and writes the document of the account named by the
    email, a refresh that of the user named by the token, a reset request
    that of the account named by the email: every other stored document is
    left exactly as it was. *)
Theorem handlers_touch_one_document env svc now salt db :
  (forall e pw u id,
      lookup_email db e = Some u -> id <> _id u ->
      lookup_id (fst (login env now salt db e pw)) id = lookup_id db id)
  /\ (forall t p id,
         verifyRefreshToken env now t = Decoded p -> id <> jwt_id p ->
         lookup_id (fst (refresh env now salt db (Some t))) id
         = lookup_id db id)
  /\ (forall e u id,
         lookup_email db e = Some u -> id <> _id u ->
         lookup_id (fst (forgotPassword env svc now salt db e)) id
         = lookup_id db id)
  /\ (forall t p id,
         jwt.verify t (JWT_SECRET env) now = Decoded p -> id <> jwt_id p ->
         lookup_id (fst (verifyEmail env now salt db (Some t))) id
         = lookup_id db id).
Proof.
  repeat apply conj.
  - intros e pw u id Hu Hne.
    destruct (isLocked now u) eqn:HL.
    { now rewrite (login_locked _ _ _ _ _ _ _ Hu HL). }
    destruct (isActive u) eqn:HA.
    2:{ now rewrite (login_deactivated _ _ _ _ _ _ _ Hu HL HA). }
    destruct (comparePassword u pw) eqn:HP.
    + rewrite (login_success _ _ _ _ _ _ _ Hu HL HA HP). cbn [fst].
      unfold login_success_db.
      rewrite updateOne_lookup_other by (auto; intros s; reflexivity).
      rewrite updateOne_lookup_other by (auto; intros s; reflexivity).
      destruct (0 <? loginAttempts u); [|reflexivity].
      now rewrite updateOne_lookup_other by (auto; intros s; reflexivity).
    + rewrite (login_wrong_password _ _ _ _ _ _ _ Hu HL HA HP). cbn [fst].
      destruct (incLoginAttempts_updateOne now db u)
        as (f & Hi & _ & _ & _ & ->).
      now apply updateOne_lookup_other.
  - intros t p id Hv Hne.
    destruct (refresh_cases env now salt db (Some t))
      as [(r & Hr & _) | (tok & p' & u & Ht & Hv' & Hu & _ & _ & Hr)];
      rewrite Hr; cbn [fst]; [reflexivity|].
    inversion Ht; subst tok. rewrite Hv in Hv'. inversion Hv'; subst p'.
    pose proof (lookup_id_In _ _ _ Hu) as [_ Hid].
    unfold refresh_success_db.
    apply updateOne_lookup_other; [intros s; reflexivity|congruence].
  - intros e u id Hu Hne.
    rewrite (forgotPassword_known _ _ _ _ _ _ _ Hu). cbn [fst].
    apply updateOne_lookup_other; [intros s; reflexivity|exact Hne].
  - intros t p id Hv Hne.
    destruct (verifyEmail_cases env now salt db (Some t))
      as [(r & Hr & _) | (tok & p' & u & Ht & Hv' & _ & Hu & _ & Hr)];
      rewrite Hr; cbn [fst]; [reflexivity|].
    inversion Ht; subst tok. rewrite Hv in Hv'. inversion Hv'; subst p'.
    pose proof (lookup_id_In _ _ _ Hu) as [_ Hid].
    apply updateOne_lookup_other; [intros s; reflexivity|congruence].
Qed.

Lemma handlers_touch_one_document_witness :
  lookup_id (fst (login env0 3000 0%N [alice; bob] "alice@example.com"
                        "wrong")) (_id bob)
  = lookup_id [alice; bob] (_id bob).
Proof.
  destruct (handlers_touch_one_document env0 svc0 3000 0%N [alice; bob])
    as (H & _).
  apply (H "alice@example.com" "wrong" alice); [reflexivity|discriminate].
Defined.

(** ** Deleting a user *)

Lemma deleteOne_lookup_same db id :
  NoDup (map _id db) -> lookup_id (deleteOne db id) id = None.
Proof.
  unfold lookup_id. induction db as [|x rest IH]; cbn [deleteOne map find].
  - reflexivity.
  - intros Hnd. inversion Hnd as [|? ? Hnotin Hnd']; subst.
    destruct (Nat.eqb (_id x) id) eqn:E.
    + apply Nat.eqb_eq in E. subst id.
      destruct (find (fun u => Nat.eqb (_id u) (_id x)) rest) as [y|] eqn:F;
        [|reflexivity].
      apply find_some in F. destruct F as [Hin Hy]. apply Nat.eqb_eq in Hy.
      exfalso. apply Hnotin. rewrite <- Hy. now apply in_map.
    + cbn [find]. rewrite E. now apply IH.
Qed.

Lemma deleteOne_lookup_other db id id' :
  id' <> id -> lookup_id (deleteOne db id) id' = lookup_id db id'.
Proof.
  unfold lookup_id. intros Hne.
  induction db as [|x rest IH]; cbn [deleteOne find]; [reflexivity|].
  destruct (Nat.eqb (_id x) id) eqn:E.
  - apply Nat.eqb_eq in E.
    destruct (Nat.eqb (_id x) id') eqn:E'; [|reflexivity].
    apply Nat.eqb_eq in E'. congruence.
  - cbn [find]. now rewrite IH.
Qed.

(** DELETE /api/users/:id asks for a valid bearer token and nothing more:
    any active user, whatever the role, deletes any stored user.  The
    deleted user is gone from the collection, the others stay as they were,
    and from then on the deleted user's access tokens are answered 'User no
    longer exists' and the refresh tokens 401. *)
Theorem deleteUser_any_caller env now db t p caller id victim :
  NoDup (map _id db) ->
  jwt.verify t (JWT_SECRET env) now = Decoded p ->
  lookup_id db (jwt_id p) = Some caller -> isActive caller = true ->
  lookup_id db id = Some victim ->
  let db' := fst (deleteUser env now db (Some [Opaque "Bearer"; t]) id) in
  snd (deleteUser env now db (Some [Opaque "Bearer"; t]) id)
  = responded (json 200 "success" "User deleted successfully" NoData)
  /\ lookup_id db' id = None
  /\ (forall id', id' <> id -> lookup_id db' id' = lookup_id db id')
  /\ (forall now' t' p',
         jwt.verify t' (JWT_SECRET env) now' = Decoded p' -> jwt_id p' = id ->
         authenticate env now' db' (Some [Opaque "Bearer"; t'])
         = next_AppError "User no longer exists" 401)
  /\ (forall now' salt' t' p',
         verifyRefreshToken env now' t' = Decoded p' -> jwt_id p' = id ->
         refresh env now' salt' db' (Some t')
         = (db', fail 401 "User not found")).
Proof.
  intros Hnd Hv Hcaller HA Hvictim db'. subst db'.
  unfold deleteUser.
  rewrite (authenticate_bearer env now db t p caller Hv Hcaller HA).
  unfold findById. rewrite Hvictim. cbn [option_map this hydrate fst snd].
  change (_id (deselect victim)) with (_id victim).
  pose proof (lookup_id_In _ _ _ Hvictim) as [_ Hid]. rewrite Hid.
  pose proof (deleteOne_lookup_same db id Hnd) as Hgone.
  repeat apply conj.
  - reflexivity.
  - exact Hgone.
  - intros id' Hne. now apply deleteOne_lookup_other.
  - intros now' t' p' Hv' Hp'. rewrite authenticate_bearer_token.
    change (bearer_token (Some [Opaque "Bearer"; t'])) with (Some t').
    cbv beta iota.
    now rewrite (verified_is_signed _ _ _ _ Hv'), Hv', Hp', Hgone.
  - intros now' salt' t' p' Hv' Hp'.
    apply (refresh_no_user env now' salt' _ t' p' Hv'). now rewrite Hp'.
Qed.

Lemma deleteUser_any_caller_witness :
  NoDup (map _id [alice; bob; carol])
  /\ role carol = role_user
  /\ snd (deleteUser env0 3000 [alice; bob; carol]
            (Some [Opaque "Bearer"; generateAuthToken env0 2000 carol])
            (_id bob))
     = responded (json 200 "success" "User deleted successfully" NoData)
  /\ lookup_id (fst (deleteUser env0 3000 [alice; bob; carol]
                       (Some [Opaque "Bearer";
                              generateAuthToken env0 2000 carol])
                       (_id bob)))
               (_id bob) = None.
Proof.
  assert (Hnd : NoDup (map _id [alice; bob; carol])).
  { repeat constructor; cbn; intuition discriminate. }
  split; [exact Hnd | split; [reflexivity|]].
  destruct (deleteUser_any_caller env0 3000 [alice; bob; carol]
              (generateAuthToken env0 2000 carol)
              {| jwt_id := 3%nat; jwt_email := Some "carol@example.com";
                 jwt_role := Some role_user; jwt_type := None |}
              carol (_id bob) bob Hnd eq_refl eq_refl eq_refl eq_refl)
    as (H1 & H2 & _).
  split; [exact H1 | exact H2].
Defined.

(** ** Stored passwords *)

Lemma hashed_updateOne db id f :
  passwords_hashed db -> (forall s, is_hash s -> is_hash (f s)) ->
  passwords_hashed (updateOne db id f).
Proof.
  unfold passwords_hashed. intros Hdb Hf.
  induction Hdb as [|x rest Hx Hrest IH]; cbn [updateOne]; [constructor|].
  destruct (Nat.eqb (_id x) id); constructor; auto.
Qed.

Lemma hashed_updateOne_same db id f :
  passwords_hashed db -> (forall s, password (f s) = password s) ->
  passwords_hashed (updateOne db id f).
Proof.
  intros Hdb Hf. apply hashed_updateOne; [exact Hdb|].
  intros s (c & sl & pw & H). exists c, sl, pw. now rewrite Hf.
Qed.

Ltac hashed :=
  repeat (apply hashed_updateOne_same; [| intros ?; reflexivity]);
  try assumption.

(** No handler ever stores a password other than as a bcrypt hash: if every
    stored password is one, it stays so through register, login, refresh,
    logout, email verification, reset requests, resets and password
    changes. *)
Theorem handlers_store_hashes env svc now salt db :
  passwords_hashed db ->
  (forall n e pw, passwords_hashed (fst (register env svc now salt db n e pw)))
  /\ (forall e pw, passwords_hashed (fst (login env now salt db e pw)))
  /\ (forall t, passwords_hashed (fst (refresh env now salt db t)))
  /\ (forall x t, passwords_hashed (fst (logout env salt db (hydrate x) t)))
  /\ (forall t, passwords_hashed (fst (verifyEmail env now salt db t)))
  /\ (forall e, passwords_hashed (fst (forgotPassword env svc now salt db e)))
  /\ (forall t pw, passwords_hashed (fst (resetPassword env now salt db t pw)))
  /\ (forall x,
         passwords_hashed
           (fst (sendVerification env svc now salt db (hydrate x))))
  /\ (forall r current new db' resp,
         changePassword env salt db r current new = Returned (db', resp) ->
         passwords_hashed db').
Proof.
  intros Hdb. repeat apply conj.
  - intros n e pw. destruct (lookup_email db e) as [u|] eqn:Hu.
    + now rewrite (register_duplicate _ _ _ _ _ _ _ _ _ Hu).
    + rewrite (register_success _ _ _ _ _ _ _ _ Hu). cbn [fst].
      apply Forall_app. split; [exact Hdb|].
      constructor; [|constructor]. unfold is_hash, registered, bcrypt.hash.
      cbn [password]. eauto.
  - intros e pw.
    destruct (lookup_email db e) as [u|] eqn:Hu.
    2:{ now rewrite (login_unknown_email _ _ _ _ _ _ Hu). }
    destruct (isLocked now u) eqn:HL.
    { now rewrite (login_locked _ _ _ _ _ _ _ Hu HL). }
    destruct (isActive u) eqn:HA.
    2:{ now rewrite (login_deactivated _ _ _ _ _ _ _ Hu HL HA). }
    destruct (comparePassword u pw) eqn:HP.
    + rewrite (login_success _ _ _ _ _ _ _ Hu HL HA HP). cbn [fst].
      unfold login_success_db. destruct (0 <? loginAttempts u); hashed.
    + rewrite (login_wrong_password _ _ _ _ _ _ _ Hu HL HA HP). cbn [fst].
      unfold incLoginAttempts.
      destruct (lockExpired now u); [hashed|].
      destruct ((maxAttempts <=? loginAttempts u + 1)
                && negb (isLocked now u)); hashed.
  - intros t.
    destruct (refresh_cases env now salt db t)
      as [(r & Hr & _) | (tok & p & u & _ & _ & _ & _ & _ & Hr)];
      rewrite Hr; cbn [fst]; [exact Hdb|].
    unfold refresh_success_db. hashed.
  - intros x t. destruct (falsy t) eqn:Hf.
    + assert (H : fst (logout env salt db (hydrate x) t)
                  = updateOne db (_id x) (set_refreshTokens [])).
      { unfold logout. destruct t as [tok|]; [rewrite Hf|]; reflexivity. }
      rewrite H. hashed.
    + destruct t as [tok|]; [|discriminate].
      rewrite (logout_one_db env salt db x tok Hf). cbn [fst]. hashed.
  - intros t.
    destruct (verifyEmail_cases env now salt db t)
      as [(r & Hr & _) | (tok & p & u & _ & _ & _ & _ & _ & Hr)];
      rewrite Hr; cbn [fst]; [exact Hdb|].
    unfold email_verified. hashed.
  - intros e. destruct (lookup_email db e) as [u|] eqn:Hu.
    + rewrite (forgotPassword_known _ _ _ _ _ _ _ Hu). cbn [fst]. hashed.
    + now rewrite (forgotPassword_unknown _ _ _ _ _ _ Hu).
  - intros t pw.
    now destruct (resetPassword_never_succeeds env now salt db t pw) as [_ ->].
  - intros x. destruct (isEmailVerified x) eqn:HE.
    + now rewrite (sendVerification_already _ _ _ _ _ _ HE).
    + rewrite (sendVerification_sent _ _ _ _ _ _ HE). cbn [fst]. hashed.
  - intros r current new db' resp. unfold changePassword.
    destruct current as [c|]; [|intros H; now inversion H; subst].
    destruct new as [n|]; [|intros H; now inversion H; subst].
    destruct (falsy_string (Some c) || falsy_string (Some n));
      [intros H; now inversion H; subst|].
    unfold findById_select_password.
    destruct (lookup_id db (_id r)) as [u|]; [|discriminate].
    loaded_with_password u.
    destruct (comparePassword u c); cbn [negb];
      [|intros H; now inversion H; subst].
    cbv zeta. destruct (String.length n <? 8)%nat; [discriminate|].
    change (save env salt db
              (assign p_refreshTokens (set_refreshTokens [])
                 (assign p_password (set_password (Some (Plain n)))
                    (hydrate (set_password (password u) (deselect u))))))
      with (updateOne db (_id u) (password_changed env salt n),
            hydrate (set_refreshTokens []
                       (set_password
                          (Some (bcrypt.hash n (saltRounds env) salt))
                          (set_password (password u) (deselect u))))).
    cbv beta iota. intros H. inversion H.
    apply hashed_updateOne; [exact Hdb|].
    intros s _. unfold is_hash, password_changed, bcrypt.hash.
    cbn [password set_refreshTokens set_password]. eauto.
Qed.

Lemma handlers_store_hashes_witness :
  passwords_hashed [alice; bob]
  /\ passwords_hashed (fst (register env0 svc0 3000 1%N [alice; bob] "carol"
                                     "carol@example.com" "Sw0rdfish!")).
Proof.
  assert (H : passwords_hashed [alice; bob]).
  { repeat constructor; unfold is_hash; cbn; eauto. }
  destruct (handlers_store_hashes env0 svc0 3000 1%N [alice; bob] H)
    as (Hreg & _).
  split; [exact H | apply Hreg].
Defined.

(** ** Tokens handed out by register *)

Lemma lookup_id_app_new db u :
  (forall x, In x db -> _id x <> _id u) ->
  lookup_id (db ++ [u]) (_id u) = Some u.
Proof.
  unfold lookup_id. induction db as [|y rest IH]; intros Hfresh; cbn [app find].
  - now rewrite Nat.eqb_refl.
  - destruct (Nat.eqb (_id y) (_id u)) eqn:E.
    + apply Nat.eqb_eq in E. exfalso. apply (Hfresh y); [now left|exact E].
    + apply IH. intros x Hx. apply Hfresh. now right.
Qed.

(** A registration answered 201 returns a pair that works at once: its
    access token passes [authenticate] as the new user, who starts active,
    unverified, with role [user] and no counted failure, and its refresh
    token refreshes. *)
Theorem register_tokens_work env svc now salt db n e pw salt' :
  0 < accessExpiresIn env -> 0 < refreshExpiresIn env ->
  status (snd (register env svc now salt db n e pw)) = 201 ->
  exists v tok rt x,
    snd (register env svc now salt db n e pw)
    = json 201 "success" "User registered successfully" (Session v tok rt)
    /\ authenticate env now (fst (register env svc now salt db n e pw))
                    (Some [Opaque "Bearer"; tok]) = next_user x
    /\ _id x = view_id v /\ email x = e /\ name x = n
    /\ role x = role_user /\ isActive x = true /\ isEmailVerified x = false
    /\ loginAttempts x = 0 /\ lockUntil x = None
    /\ status (snd (refresh env now salt'
                      (fst (register env svc now salt db n e pw)) (Some rt)))
       = 200.
Proof.
  intros Ha Hr H201.
  destruct (lookup_email db e) as [u|] eqn:Hu.
  { rewrite (register_duplicate _ _ _ _ _ _ _ _ _ Hu) in H201.
    discriminate H201. }
  rewrite (register_success _ _ _ _ _ _ _ _ Hu). cbn [fst snd].
  set (r := registered env now salt db n e pw).
  assert (Hlook : lookup_id (db ++ [r]) (newObjectId db) = Some r).
  { apply (lookup_id_app_new db r). intros x Hx.
    now apply newObjectId_fresh. }
  unfold register_success_response.
  exists {| view_id := newObjectId db; view_name := n; view_email := e;
            view_role := role_user; view_isEmailVerified := false;
            view_lastLogin := None |},
         (generateAuthToken env now r),
         (issued_refresh_token env now (newObjectId db)),
         (deselect r).
  split; [reflexivity|]. split.
  - apply (authenticate_bearer env now _ _
             {| jwt_id := newObjectId db; jwt_email := Some e;
                jwt_role := Some role_user; jwt_type := None |} r).
    + rewrite generateAuthToken_verify.
      destruct (_ <=? _) eqn:E; [|reflexivity]. apply Z.leb_le in E. lia.
    + exact Hlook.
    + reflexivity.
  - repeat split.
    assert (Hv : verifyRefreshToken env now
                   (issued_refresh_token env now (newObjectId db))
                 = Decoded {| jwt_id := newObjectId db; jwt_email := None;
                              jwt_role := None; jwt_type := None |}).
    { rewrite issued_refresh_token_verify.
      destruct (_ <=? _) eqn:E; [|reflexivity]. apply Z.leb_le in E. lia. }
    rewrite (refresh_success env now salt' _ _ _ r Hv Hlook eq_refl);
      [reflexivity|].
    unfold tokenExists, r, registered. cbn [refreshTokens existsb new_entry token].
    unfold Token_eqb.
    destruct (Token_eq_dec (issued_refresh_token env now (newObjectId db))
                           (issued_refresh_token env now (newObjectId db)));
      [reflexivity|contradiction].
Qed.

Lemma register_tokens_work_witness :
  0 < accessExpiresIn env0 /\ 0 < refreshExpiresIn env0
  /\ status (snd (register env0 svc0 3000 1%N [alice; bob] "carol"
                           "carol@example.com" "Sw0rdfish!")) = 201
  /\ exists v tok rt x,
      snd (register env0 svc0 3000 1%N [alice; bob] "carol"
                    "carol@example.com" "Sw0rdfish!")
      = json 201 "success" "User registered successfully" (Session v tok rt)
      /\ authenticate env0 3000
           (fst (register env0 svc0 3000 1%N [alice; bob] "carol"
                          "carol@example.com" "Sw0rdfish!"))
           (Some [Opaque "Bearer"; tok]) = next_user x
      /\ email x = "carol@example.com".
Proof.
  split; [reflexivity | split; [reflexivity | split; [reflexivity|]]].
  destruct (register_tokens_work env0 svc0 3000 1%N [alice; bob] "carol"
              "carol@example.com" "Sw0rdfish!" 0%N
              eq_refl eq_refl eq_refl)
    as (v & tok & rt & x & H1 & H2 & _ & H4 & _).
  exists v, tok, rt, x. repeat split; assumption.
Defined.

(** ** The Authorization header *)

(** [authenticate] reads the token as the second space-separated word of a
    header whose text starts with 'Bearer': the scheme is matched by prefix
    and by case, words after the second are ignored, and a header that is
    absent, has another scheme or has no second word is answered 'Access
    token is required'. *)
Theorem authorization_header_shape env now db :
  authenticate env now db None
  = next_AppError "Access token is required" 401
  /\ (forall w, authenticate env now db (Some [w])
                = next_AppError "Access token is required" 401)
  /\ (forall s rest,
         prefix "Bearer" s = false ->
         authenticate env now db (Some (Opaque s :: rest))
         = next_AppError "Access token is required" 401)
  /\ (forall p iat exp k rest,
         authenticate env now db (Some (Jws p iat exp k :: rest))
         = next_AppError "Access token is required" 401)
  /\ (forall s t rest,
         prefix "Bearer" s = true ->
         authenticate env now db (Some (Opaque s :: t :: rest))
         = authenticate env now db (Some [Opaque "Bearer"; t])).
Proof.
  repeat apply conj.
  - reflexivity.
  - intros w. unfold authenticate.
    destruct (startsWith_Bearer [w]); reflexivity.
  - intros s rest Hs. unfold authenticate.
    cbn [startsWith_Bearer]. now rewrite Hs.
  - reflexivity.
  - intros s t rest Hs. rewrite !authenticate_bearer_token.
    unfold bearer_token. cbn [startsWith_Bearer]. rewrite Hs.
    reflexivity.
Qed.

Lemma authorization_header_shape_witness :
  authenticate env0 3000 [alice]
    (Some [Opaque "bearer"; generateAuthToken env0 2000 alice])
  = next_AppError "Access token is required" 401
  /\ authenticate env0 3000 [alice]
       (Some [Opaque "BearerToken"; generateAuthToken env0 2000 alice;
              Opaque "trailing"])
     = authenticate env0 3000 [alice]
         (Some [Opaque "Bearer"; generateAuthToken env0 2000 alice]).
Proof.
  destruct (authorization_header_shape env0 3000 [alice])
    as (_ & _ & Hscheme & _ & Hprefix).
  split.
  - apply Hscheme. reflexivity.
  - apply Hprefix. reflexivity.
Defined.

(** ** Verified email as a gate *)

(** [requireEmailVerification] blocks an attached user with 403 until the
    email is verified; once [verifyEmail] has answered 200 for that user,
    the same bearer token passes the gate. *)
Theorem verified_email_opens_gate env now salt db t p u bearer q now' :
  jwt.verify t (JWT_SECRET env) now = Decoded p ->
  jwt_type p = Some "email_verification" ->
  lookup_id db (jwt_id p) = Some u -> isEmailVerified u = false ->
  isActive u = true ->
  jwt.verify bearer (JWT_SECRET env) now = Decoded q ->
  jwt.verify bearer (JWT_SECRET env) now' = Decoded q ->
  jwt_id q = jwt_id p ->
  (exists x,
      authenticate env now db (Some [Opaque "Bearer"; bearer]) = next_user x
      /\ requireEmailVerification (Some x)
         = gate_AppError "Email verification required" 403)
  /\ (exists x,
         authenticate env now'
           (fst (verifyEmail env now salt db (Some t)))
           (Some [Opaque "Bearer"; bearer]) = next_user x
         /\ requireEmailVerification (Some x) = gate_next)
  /\ requireEmailVerification None
     = gate_AppError "Authentication required" 401.
Proof.
  intros Hv Hty Hu HE HA Hb Hb' Hq.
  assert (Ht : type_is p "email_verification" = true).
  { unfold type_is. rewrite Hty. reflexivity. }
  pose proof (lookup_id_In _ _ _ Hu) as [_ Hid].
  assert (Hu' : lookup_id (fst (verifyEmail env now salt db (Some t)))
                          (jwt_id p) = Some (email_verified u)).
  { rewrite (verifyEmail_success _ _ _ _ _ _ _ Hv Ht Hu HE). cbn [fst].
    rewrite <- Hid. apply updateOne_lookup_same; [intros s; reflexivity|].
    now rewrite Hid. }
  split; [|split].
  - exists (deselect u). split.
    + apply (authenticate_bearer env now db bearer q u Hb); [|exact HA].
      now rewrite Hq.
    + unfold requireEmailVerification.
      change (isEmailVerified (deselect u)) with (isEmailVerified u).
      now rewrite HE.
  - exists (deselect (email_verified u)). split.
    + apply (authenticate_bearer env now' _ bearer q (email_verified u) Hb').
      * now rewrite Hq.
      * exact HA.
    + reflexivity.
  - reflexivity.
Qed.

Lemma verified_email_opens_gate_witness :
  exists x,
    authenticate env0 4000
      (fst (verifyEmail env0 3000 0%N [alice] (Some alice_verification_token)))
      (Some [Opaque "Bearer"; generateAuthToken env0 2000 alice])
    = next_user x
    /\ requireEmailVerification (Some x) = gate_next.
Proof.
  destruct (verified_email_opens_gate env0 3000 0%N [alice]
              alice_verification_token
              {| jwt_id := 1%nat; jwt_email := None; jwt_role := None;
                 jwt_type := Some "email_verification" |}
              alice (generateAuthToken env0 2000 alice)
              {| jwt_id := 1%nat; jwt_email := Some "alice@example.com";
                 jwt_role := Some role_user; jwt_type := None |}
              4000 eq_refl eq_refl eq_refl eq_refl eq_refl eq_refl eq_refl
              eq_refl) as (_ & H & _).
  exact H.
Defined.
